(** * convex-solidjs: the reactive query facade and the mutation/action facades

    A shallow embedding of [useQuery], [useMutation] and [useAction].

    The repository carries two revisions of [useQuery]:
    - the built bundles [dist/index.jsx] and [dist/dev.js], whose [useQuery]
      differ only in where the clients come from: a one-shot
      [hasReceivedData] flag, a network query as last loader step, live data
      and live error read directly by the derived accessors (module [Dist]
      below);
    - the TypeScript source [src/index.tsx], keyed by a [version] counter that
      is part of the resource key, with live data reaching the accessors only
      through the loader (module [Tsx] below).
    [useMutation] and [useAction] are the same in all revisions.

    Solid's primitives ([createSignal], [createMemo], [createResource],
    [createEffect], [batch], [onCleanup]) and the Convex client are external
    collaborators: signals are fields of a state record, memos are functions
    of that state, the resource is the record of what its four accessors
    return, and the transport is an oracle passed to the code. *)

From Stdlib Require Import ZArith String List Bool Lia DecimalString.
From stdpp Require Import base decidable option list strings gmap.

Local Open Scope string_scope.

(** ** JavaScript values *)

Module Js.

(** Plain values a Convex function can return, plus [undefined].
    Numbers are the integers that a double holds exactly; an object is a
    plain object, not an array, known by its reference. *)
Inductive Value : Type :=
| VUndefined
| VNull
| VBool (b : bool)
| VNum (n : Z)
| VStr (s : string)
| VObj (ref : nat).

#[global] Instance Value_eq_dec : EqDecision Value.
Proof. solve_decision. Defined.

(** An instance of [Error]. *)
Record Error : Type := new_Error { message : string }.

#[global] Instance Error_eq_dec : EqDecision Error.
Proof. solve_decision. Defined.

(** Whatever a [catch] clause or a rejected promise can carry. *)
Inductive Thrown : Type :=
| ThrowError (e : Error)
| ThrowValue (v : Value).

(** [v !== void 0] *)
Definition defined (v : Value) : bool :=
  match v with VUndefined => false | _ => true end.

(** ToBoolean *)
Definition truthy (v : Value) : bool :=
  match v with
  | VUndefined | VNull => false
  | VBool b => b
  | VNum n => negb (n =? 0)%Z
  | VStr s => negb (String.eqb s "")
  | VObj _ => true
  end.

(** [a && b] *)
Definition and (a b : Value) : Value := if truthy a then b else a.

(** [a === b] *)
Definition strict_eq (a b : Value) : bool := bool_decide (a = b).

(** [Boolean(v)] *)
Definition Boolean (v : Value) : bool := truthy v.

(** [String(v)] *)
Definition String (v : Value) : string :=
  match v with
  | VUndefined => "undefined"
  | VNull => "null"
  | VBool true => "true"
  | VBool false => "false"
  | VNum n => NilZero.string_of_int (Z.to_int n)
  | VStr s => s
  | VObj _ => "[object Object]"
  end.

(** An optional boolean property [p?: boolean] read as a value. *)
Definition of_flag (p : option bool) : Value :=
  match p with None => VUndefined | Some b => VBool b end.

(** [a ?? b] on [Error | undefined] *)
Definition coalesce (a b : option Error) : option Error :=
  match a with Some e => Some e | None => b end.

End Js.

Import Js.

(** ** Data model shared by the revisions *)

(** [QueryOptions<T>] *)
Record QueryOptions : Type := {
  enabled : option bool;
  initialData : Value;
  keepPreviousData : option bool
}.

(** What the accessors of the resource return at one instant:
    [resource()], [resource.error], [resource.loading], [resource.latest].
    The record keeps the four reads apart, as the code does. *)
Record Resource : Type := {
  value : Value;
  res_error : option Error;
  loading : bool;
  latest : Value
}.

(** In solid-js [resource()] and [resource.latest] read one signal, the
    value last settled (and rethrow alike on a failed resource at rest):
    they differ in how they suspend, not in what they give. A resource as
    the runtime hands it to the code satisfies this. *)
Definition one_signal (r : Resource) : Prop := value r = latest r.

Definition Args : Type := Value.

(** [client.client.localQueryResult(name, args)]: a value (possibly
    [undefined]) or an exception. *)
Inductive CacheRead : Type :=
| CacheThrows
| CacheReturns (result : Value).

(** How a promise settles. *)
Inductive Settled : Type :=
| Fulfilled (v : Value)
| Rejected (reason : Thrown).

(** The Convex clients as the loader uses them. [httpClient] tells whether
    an HTTP client exists; [query] and [httpQuery] say how
    [client.query(query, args)] and [httpClient.query(query, args)] settle. *)
Record Client : Type := {
  isServer : bool;
  httpClient : bool;
  localQueryResult : Args -> CacheRead;
  query : Args -> Settled;
  httpQuery : Args -> Settled
}.

(** One execution of the async loader body, up to its first [await]:
    it returns, throws, or awaits one of the two network queries and
    returns what that yields. *)
Inductive Fetch : Type :=
| Return (v : Value)
| Throw (reason : Thrown)
| AwaitHttpQuery (a : Args)
| AwaitQuery (a : Args).

(** The promise the async loader body returns. *)
Definition settle (c : Client) (f : Fetch) : Settled :=
  match f with
  | Return v => Fulfilled v
  | Throw r => Rejected r
  | AwaitHttpQuery a => httpQuery c a
  | AwaitQuery a => query c a
  end.

Definition is_network (f : Fetch) : bool :=
  match f with
  | AwaitHttpQuery _ | AwaitQuery _ => true
  | _ => false
  end.

(** [try { const result = localQueryResult(..); if (result !== void 0) return result } catch {}]:
    [Some result] when the block returns from the loader, [None] when control
    falls through, whether after the [if] or after the empty [catch]. *)
Definition cache_step (c : Client) (a : Args) : option Value :=
  match localQueryResult c a with
  | CacheReturns result => if defined result then Some result else None
  | CacheThrows => None
  end.

(** The cache has no synchronous answer: the read throws or gives
    [undefined]. *)
Definition cache_miss (c : Client) (a : Args) : Prop :=
  localQueryResult c a = CacheThrows
  \/ localQueryResult c a = CacheReturns VUndefined.

(** A subscription made by [client.onUpdate(query, args, onData, onError)];
    the returned [unsubscribe] is identified with it. *)
Record Subscription : Type := { sub_id : nat; sub_args : Args }.

#[global] Instance Subscription_eq_dec : EqDecision Subscription.
Proof. solve_decision. Defined.

Inductive ClientCall : Type :=
| OnUpdate (s : Subscription)
| Unsubscribe (s : Subscription).

#[global] Instance ClientCall_eq_dec : EqDecision ClientCall.
Proof. solve_decision. Defined.

(** ** The bundles [dist/index.jsx] and [dist/dev.js] *)

Module Dist.

(** The three signals written by the subscription callbacks. *)
Record Live : Type := {
  liveData : Value;
  liveError : option Error;
  hasReceivedData : bool
}.

Definition live0 : Live :=
  {| liveData := VUndefined; liveError := None; hasReceivedData := false |}.

Section Reconciler.
Variable opts : QueryOptions.
Variable live : Live.
Variable resource : Resource.

Definition data : Value :=
  let l := liveData live in
  if defined l then l
  else if truthy (and (of_flag (keepPreviousData opts)) (latest resource))
       then latest resource
       else value resource.

Definition error : option Error :=
  coalesce (liveError live) (res_error resource).

Definition isLoading : bool :=
  loading resource && negb (defined (liveData live)).

Definition isStale : bool :=
  Boolean
    (and (and (and (of_flag (keepPreviousData opts))
                   (VBool (loading resource)))
              (latest resource))
         (VBool (strict_eq data (latest resource)))).
End Reconciler.


(** *** The resource: key function and loader *)

(** The key [{ args }]. *)
Record Source : Type := { src_args : Args }.

Definition source (opts : QueryOptions) (args : Args) : option Source :=
  if bool_decide (enabled opts = Some false) then None
  else Some {| src_args := args |}.

Definition fetcher (c : Client) (opts : QueryOptions) (live : Live)
    (src : Source) : Fetch :=
  if isServer c && defined (initialData opts) then Return (initialData opts)
  else if isServer c && httpClient c then AwaitHttpQuery (src_args src)
  else match cache_step c (src_args src) with
       | Some result => Return result
       | None =>
           if defined (initialData opts) && negb (hasReceivedData live)
           then Return (initialData opts)
           else AwaitQuery (src_args src)
       end.

(** *** The subscription callbacks *)

Inductive Write : Type :=
| SetLiveData (v : Value)
| SetLiveError (e : option Error)
| SetHasReceivedData (b : bool).

Definition write (l : Live) (w : Write) : Live :=
  match w with
  | SetLiveData v =>
      {| liveData := v; liveError := liveError l;
         hasReceivedData := hasReceivedData l |}
  | SetLiveError e =>
      {| liveData := liveData l; liveError := e;
         hasReceivedData := hasReceivedData l |}
  | SetHasReceivedData b =>
      {| liveData := liveData l; liveError := liveError l;
         hasReceivedData := b |}
  end.

(** [batch(() => { ... })]: the writes are applied in order and observers
    run once, on the state after the last one. *)
Definition batch (ws : list Write) (l : Live) : Live := fold_left write ws l.

Definition onData (data2 : Value) : Live -> Live :=
  batch [SetLiveData data2; SetLiveError None; SetHasReceivedData true].

Definition onError (error2 : Error) : Live -> Live :=
  batch [SetLiveError (Some error2); SetLiveData VUndefined;
         SetHasReceivedData true].

Inductive Callback : Type :=
| Data (data2 : Value)
| Err (error2 : Error).

Definition callback (l : Live) (cb : Callback) : Live :=
  match cb with
  | Data d => onData d l
  | Err e => onError e l
  end.

(** The Live Slot after a sequence of callbacks, oldest first. *)
Definition deliver (cbs : list Callback) (l : Live) : Live :=
  fold_left callback cbs l.

(** *** One call site *)

(** The inputs as last resolved, the signals, the cleanup registered by the
    last run of the subscription effect, the calls made to the client
    (latest first) and the loader runs started (latest first). *)
Record Query : Type := {
  q_args : Args;
  q_opts : QueryOptions;
  q_live : Live;
  q_cleanup : option Subscription;
  q_next : nat;
  q_calls : list ClientCall;
  q_runs : list Fetch
}.

Definition key (q : Query) : option Source := source (q_opts q) (q_args q).

(** Modelled from the spec: the effect scope of the reactive runtime, which
    is not part of this repository. Before an effect runs again, and when
    its scope is disposed, the cleanup registered by its last run is called
    once and dropped. *)
Definition run_cleanup (q : Query) : Query :=
  match q_cleanup q with
  | None => q
  | Some s =>
      {| q_args := q_args q; q_opts := q_opts q; q_live := q_live q;
         q_cleanup := None; q_next := q_next q;
         q_calls := Unsubscribe s :: q_calls q; q_runs := q_runs q |}
  end.

(** [const unsubscribe = client.onUpdate(..); onCleanup(unsubscribe)] *)
Definition subscribe (args2 : Args) (q : Query) : Query :=
  let s := {| sub_id := q_next q; sub_args := args2 |} in
  {| q_args := q_args q; q_opts := q_opts q; q_live := q_live q;
     q_cleanup := Some s; q_next := S (q_next q);
     q_calls := OnUpdate s :: q_calls q; q_runs := q_runs q |}.

(** One run of the effect [on([getArgs, () => getOptions().enabled], ..)]. *)
Definition subscription_effect (q : Query) : Query :=
  let args2 := q_args q in
  let enabled := enabled (q_opts q) in
  let q := run_cleanup q in
  if bool_decide (enabled = Some false) then q
  else subscribe args2 q.

(** Modelled from the spec: the async-resource primitive of the reactive
    runtime, which is not part of this repository. It executes the loader
    on the current key, and not at all when the key is the sentinel. *)
Definition load (c : Client) (q : Query) : Query :=
  match key q with
  | None => q
  | Some src =>
      {| q_args := q_args q; q_opts := q_opts q; q_live := q_live q;
         q_cleanup := q_cleanup q; q_next := q_next q;
         q_calls := q_calls q;
         q_runs := fetcher c (q_opts q) (q_live q) src :: q_runs q |}
  end.

(** Modelled from the spec: [refetch], the second component of what the
    resource primitive returns, executes the loader again on the current
    key. *)
Definition refetch (c : Client) (q : Query) : Query := load c q.

Definition with_inputs (args : Args) (opts : QueryOptions) (q : Query) : Query :=
  {| q_args := args; q_opts := opts; q_live := q_live q;
     q_cleanup := q_cleanup q; q_next := q_next q;
     q_calls := q_calls q; q_runs := q_runs q |}.

Definition with_live (l : Live) (q : Query) : Query :=
  {| q_args := q_args q; q_opts := q_opts q; q_live := l;
     q_cleanup := q_cleanup q; q_next := q_next q;
     q_calls := q_calls q; q_runs := q_runs q |}.

(** [useQuery(query, args, options)] at its first execution: the resource
    computation runs, then the effect, as in the browser; the server build
    of the runtime runs no effect, so that no subscription exists there. *)
Definition useQuery (c : Client) (args : Args) (opts : QueryOptions) : Query :=
  subscription_effect
    (load c {| q_args := args; q_opts := opts; q_live := live0;
               q_cleanup := None; q_next := 0; q_calls := [];
               q_runs := [] |}).

(** What can happen to a call site afterwards. *)
Inductive Event : Type :=
| Inputs (args : Args) (opts : QueryOptions)
| Update (cb : Callback)
| Refetch
| Dispose.

Definition step (c : Client) (q : Query) (ev : Event) : Query :=
  match ev with
  | Inputs args opts => subscription_effect (load c (with_inputs args opts q))
  | Update cb => with_live (callback (q_live q) cb) q
  | Refetch => refetch c q
  | Dispose => run_cleanup q
  end.

Definition run (c : Client) (evs : list Event) (q : Query) : Query :=
  fold_left (step c) evs q.

(** The subscriptions made and not unsubscribed since, from the calls
    (latest first). *)
Fixpoint active (calls : list ClientCall) : list Subscription :=
  match calls with
  | [] => []
  | OnUpdate s :: older => s :: active older
  | Unsubscribe s :: older => filter (fun s' => s' ≠ s) (active older)
  end.

(** What holds of the subscription at every reachable state: the calls
    made to the client leave active exactly the subscription whose cleanup
    is registered, and none is registered while the query is disabled. *)
Definition tracked (q : Query) : Prop :=
  active (q_calls q) = option_list (q_cleanup q)
  /\ (enabled (q_opts q) = Some false -> q_cleanup q = None).

End Dist.

(** ** The source [src/index.tsx] *)

Module Tsx.

(** The signals written by the subscription callbacks: a [version] counter
    takes the place of the flag. *)
Record Live : Type := {
  liveData : Value;
  liveError : option Error;
  version : nat
}.

Definition live0 : Live :=
  {| liveData := VUndefined; liveError := None; version := 0 |}.

(** The key [{ args, version }]. *)
Record Source : Type := { src_args : Args; src_version : nat }.

Definition source (opts : QueryOptions) (args : Args) (live : Live)
    : option Source :=
  if bool_decide (enabled opts = Some false) then None
  else Some {| src_args := args; src_version := version live |}.

Definition fetcher (c : Client) (opts : QueryOptions) (live : Live)
    (src : Source) : Fetch :=
  if isServer c && httpClient c then AwaitHttpQuery (src_args src)
  else match cache_step c (src_args src) with
       | Some result => Return result
       | None =>
           match liveError live with
           | Some error => Throw (ThrowError error)
           | None =>
               let data := liveData live in
               if defined data then Return data
               else if defined (initialData opts) && (version live =? 0)%nat
                    then Return (initialData opts)
                    else Return VUndefined
           end
       end.

Definition onData (data : Value) (l : Live) : Live :=
  {| liveData := data; liveError := None; version := S (version l) |}.

Definition onError (error : Error) (l : Live) : Live :=
  {| liveData := VUndefined; liveError := Some error;
     version := S (version l) |}.

Section Reconciler.
Variable opts : QueryOptions.
Variable resource : Resource.

Definition data : Value :=
  if truthy (and (and (of_flag (keepPreviousData opts))
                      (VBool (loading resource)))
                 (latest resource))
  then latest resource
  else value resource.

Definition error : option Error := res_error resource.

(** [resource.loading && !data()] *)
Definition isLoading : bool := loading resource && negb (truthy data).

Definition isStale : bool :=
  Boolean
    (and (and (and (of_flag (keepPreviousData opts))
                   (VBool (loading resource)))
              (latest resource))
         (VBool (strict_eq data (latest resource)))).
End Reconciler.

End Tsx.

(** ** [useMutation] and [useAction] *)

Module Mutation.

(** [MutationState<T>]; an absent property reads as [undefined]. *)
Record MutationState : Type := {
  data : Value;
  error : option Error;
  isLoading : bool
}.

(** [{ isLoading: false }] *)
Definition idle : MutationState :=
  {| data := VUndefined; error := None; isLoading := false |}.

(** [{ isLoading: true }] *)
Definition in_flight : MutationState :=
  {| data := VUndefined; error := None; isLoading := true |}.

(** The client method an async body awaits. *)
Inductive Call : Type :=
| ClientMutation (args : Args)
| ClientAction (args : Args).

(** An async function with one [await]: the state it sets before the
    awaited call, the call, and for each way the call settles the state it
    sets and how its own promise settles. *)
Record Async : Type := {
  before : MutationState;
  awaits : Call;
  after : Settled -> MutationState * Settled
}.

(** [error instanceof Error ? error : new Error(String(error))] *)
Definition normalize (error : Thrown) : Error :=
  match error with
  | ThrowError e => e
  | ThrowValue v => new_Error (String v)
  end.

(** The [try]/[catch] around the awaited call. *)
Definition settled (outcome : Settled) : MutationState * Settled :=
  match outcome with
  | Fulfilled result =>
      ({| data := result; error := None; isLoading := false |},
       Fulfilled result)
  | Rejected error =>
      let err := normalize error in
      ({| data := VUndefined; error := Some err; isLoading := false |},
       Rejected (ThrowError err))
  end.

Definition mutateAsync (args : Args) : Async :=
  {| before := in_flight; awaits := ClientMutation args; after := settled |}.

Definition executeAsync (args : Args) : Async :=
  {| before := in_flight; awaits := ClientAction args; after := settled |}.

Definition reset : MutationState := idle.

(** [MutationReturn<TArgs, TResult>]; the three accessors read the state
    signal. *)
Module Api.
Record MutationReturn : Type := {
  mutate : Args -> Async;
  mutateAsync : Args -> Async;
  data : MutationState -> Value;
  error : MutationState -> option Error;
  isLoading : MutationState -> bool;
  reset : MutationState
}.
End Api.

Definition useMutation : Api.MutationReturn :=
  {| Api.mutate := mutateAsync; Api.mutateAsync := mutateAsync;
     Api.data := data; Api.error := error; Api.isLoading := isLoading;
     Api.reset := reset |}.

Definition useAction : Api.MutationReturn :=
  {| Api.mutate := executeAsync; Api.mutateAsync := executeAsync;
     Api.data := data; Api.error := error; Api.isLoading := isLoading;
     Api.reset := reset |}.

(** *** A facade under use *)

(** The state signal, the calls that have started and not settled (each
    with its suspended body), the number of calls started so far, and, as
    a ghost for stating whose result is visible, the call whose settling
    wrote the state last. *)
Record Facade : Type := {
  state : MutationState;
  pending : gmap nat Async;
  started : nat;
  writer : option nat
}.

Definition facade0 : Facade :=
  {| state := idle; pending := ∅; started := 0; writer := None |}.

Inductive Event : Type :=
| Start (args : Args)
| Settle (call : nat) (outcome : Settled)
| Reset.

(** Calls are numbered in the order they start. A promise settles once:
    settling a call that is not pending does nothing. *)
Definition step (api : Api.MutationReturn) (f : Facade) (ev : Event) : Facade :=
  match ev with
  | Start args =>
      let body := Api.mutate api args in
      {| state := before body;
         pending := <[started f := body]> (pending f);
         started := S (started f);
         writer := None |}
  | Settle call outcome =>
      match pending f !! call with
      | Some body =>
          {| state := fst (after body outcome);
             pending := delete call (pending f);
             started := started f;
             writer := Some call |}
      | None => f
      end
  | Reset =>
      {| state := Api.reset api; pending := pending f;
         started := started f; writer := None |}
  end.

Definition run (api : Api.MutationReturn) (evs : list Event) (f : Facade)
    : Facade :=
  fold_left (step api) evs f.

(** The state invariant: data and error are not both defined, and
    neither is while [isLoading] is true. *)
Definition sound (st : MutationState) : Prop :=
  (data st = VUndefined \/ error st = None)
  /\ (isLoading st = true -> data st = VUndefined /\ error st = None).

(** What holds of a facade at every reachable state, beyond the state
    signal: pending calls were started by this facade and resume in the
    [try]/[catch] of the source; the writer has settled; without a writer
    nothing is visible. *)
Definition consistent (f : Facade) : Prop :=
  (forall k body, pending f !! k = Some body ->
     k < started f /\ after body = settled)
  /\ (forall w, writer f = Some w -> pending f !! w = None /\ w < started f)
  /\ (writer f = None ->
      data (state f) = VUndefined /\ error (state f) = None).

End Mutation.

(** ** The Result Reconciler in the words of the specification *)

Module Spec.

Section Reconciler.
Variable opts : QueryOptions.
Variable live : Dist.Live.
Variable resource : Resource.

(** "If the Live Slot currently holds a defined value, that value wins.
    Otherwise, if keepPreviousData is enabled and a run is in flight and
    a latestCompleted exists, return latestCompleted. Otherwise return
    the current Load Slot value." *)
Definition data : Value :=
  if defined (Dist.liveData live) then Dist.liveData live
  else if bool_decide (keepPreviousData opts = Some true)
          && loading resource && defined (latest resource)
       then latest resource
       else value resource.

(** "True only when keepPreviousData is enabled, a run is in flight, a
    latestCompleted exists, and data currently equals that
    latestCompleted", for the [data] that is visible. *)
Definition isStale (visible : Value) : bool :=
  bool_decide (keepPreviousData opts = Some true)
  && loading resource && defined (latest resource)
  && strict_eq visible (latest resource).
End Reconciler.

End Spec.

(** ** Client construction and the provider *)

Module Setup.

(** [typeof v] *)
Definition typeof (v : Value) : string :=
  match v with
  | VUndefined => "undefined"
  | VNull => "object"
  | VBool _ => "boolean"
  | VNum _ => "number"
  | VStr _ => "string"
  | VObj _ => "object"
  end.

(** [!url || typeof url !== "string"] *)
Definition invalid_url (url : Value) : bool :=
  negb (truthy url) || negb (String.eqb (typeof url) "string").

(** [{ disabled: isServer, ...options }], an object being the finite map
    of its own properties; [options] may be left out. *)
Definition client_options (server : bool) (options : option (gmap string Value))
    : gmap string Value :=
  default ∅ options ∪ {[ "disabled" := VBool server ]}.

(** The clients that [new ConvexClient(url, options)] and
    [new ConvexHttpClient(url)] make, known by the arguments they were made
    with. *)
Record ConvexClient : Type := {
  address : Value;
  client_opts : gmap string Value
}.

Record ConvexHttpClient : Type := { http_address : Value }.

(** The two constructors belong to the Convex SDK and check the deployment
    address themselves: what [new ConvexClient(url, options)] and
    [new ConvexHttpClient(url)] throw, if they throw. *)
Record Sdk : Type := {
  client_throws : Value -> gmap string Value -> option Thrown;
  http_throws : Value -> option Thrown
}.

(** *** [dist/dev.js] and [src/index.tsx] *)

Record ConvexQueryClient : Type := {
  client : ConvexClient;
  serverHttpClient : option ConvexHttpClient
}.

(** [new ConvexQueryClient(url, options)], in an environment where
    [isServer] is [server]: the guard, then the client, then on the server
    the HTTP client; whatever a constructor of the SDK throws leaves the
    constructor. *)
Definition new_ConvexQueryClient (sdk : Sdk) (server : bool) (url : Value)
    (options : option (gmap string Value)) : Thrown + ConvexQueryClient :=
  if invalid_url url
  then inl (ThrowError
              (new_Error "ConvexQueryClient requires a valid URL string"))
  else
    match client_throws sdk url (client_options server options) with
    | Some thrown => inl thrown
    | None =>
        let made := {| address := url;
                       client_opts := client_options server options |} in
        if server then
          match http_throws sdk url with
          | Some thrown => inl thrown
          | None => inr {| client := made;
                           serverHttpClient := Some {| http_address := url |} |}
          end
        else inr {| client := made; serverHttpClient := None |}
    end.

(** The first lines of [useQuery]: the client of the provider, or the
    error thrown outside one, and the two clients the loader uses. *)
Definition useQuery_clients (ctx : option ConvexQueryClient)
    : Error + (ConvexClient * option ConvexHttpClient) :=
  match ctx with
  | None => inl (new_Error "useQuery must be used within ConvexProvider")
  | Some convexQueryClient =>
      inr (client convexQueryClient, serverHttpClient convexQueryClient)
  end.

(** *** [dist/index.jsx] *)

(** Clients are known by the order of their creation; [clientUrls] is the
    module-level [WeakMap], [closing] the clients whose [close] is
    registered with [onCleanup] (latest first). *)
Record Registry : Type := {
  created : nat;
  clientUrls : gmap nat Value;
  clients : gmap nat ConvexClient;
  closing : list nat
}.

Definition registry0 : Registry :=
  {| created := 0; clientUrls := ∅; clients := ∅; closing := [] |}.

(** The guard, then [new ConvexClient(..)], which may throw, then
    [clientUrls.set], [onCleanup] and the return. *)
Definition setupConvex (sdk : Sdk) (server : bool) (url : Value)
    (options : option (gmap string Value)) (r : Registry)
    : Thrown + (nat * Registry) :=
  if invalid_url url
  then inl (ThrowError (new_Error "setupConvex requires a valid URL string"))
  else
    match client_throws sdk url (client_options server options) with
    | Some thrown => inl thrown
    | None =>
        let client := created r in
        inr (client,
             {| created := S (created r);
                clientUrls := <[client := url]> (clientUrls r);
                clients :=
                  <[client := {| address := url;
                                 client_opts := client_options server options |}]>
                    (clients r);
                closing := client :: closing r |})
    end.

(** [clientUrls.get(client)] *)
Definition url_of (r : Registry) (client : nat) : Value :=
  default VUndefined (clientUrls r !! client).

(** The first lines of [useQuery]: the client of the provider, or the
    error thrown outside one, and
    [isServer && url ? new ConvexHttpClient(url) : null], where the
    constructor may throw. *)
Definition useQuery_clients_jsx (sdk : Sdk) (server : bool) (ctx : option nat)
    (r : Registry) : Thrown + (nat * option ConvexHttpClient) :=
  match ctx with
  | None =>
      inl (ThrowError
             (new_Error "useQuery must be used within ConvexProvider"))
  | Some client =>
      let url := url_of r client in
      if truthy (and (VBool server) url)
      then match http_throws sdk url with
           | Some thrown => inl thrown
           | None => inr (client, Some {| http_address := url |})
           end
      else inr (client, None)
  end.

(** The loader's view of an environment: whether it is a server, and
    whether [useQuery] found an HTTP client. *)
Definition loader_client (server : bool) (http : option ConvexHttpClient)
    (cache : Args -> CacheRead) (q hq : Args -> Settled) : Client :=
  {| isServer := server; httpClient := bool_decide (is_Some http);
     localQueryResult := cache; query := q; httpQuery := hq |}.

End Setup.

(** ** The life of the subscription in [dist/index.jsx] *)

Module Lifecycle.
Import Dist.

Definition sub_of (call : ClientCall) : Subscription :=
  match call with OnUpdate s | Unsubscribe s => s end.

(** The registered cleanup belongs to the current arguments of an enabled
    query. *)
Definition current (q : Query) : Prop :=
  forall s, q_cleanup q = Some s ->
    sub_args s = q_args q /\ enabled (q_opts q) <> Some false.

(** The calls made to the client: identifiers are fresh, no call is made
    twice, only subscriptions that were made are unsubscribed, and a
    subscription that was made is unsubscribed or is the one whose cleanup
    is registered. *)
Definition logged (q : Query) : Prop :=
  Forall (fun call => sub_id (sub_of call) < q_next q) (q_calls q)
  /\ NoDup (q_calls q)
  /\ (forall s, Unsubscribe s ∈ q_calls q -> OnUpdate s ∈ q_calls q)
  /\ (forall s, OnUpdate s ∈ q_calls q ->
        Unsubscribe s ∈ q_calls q \/ q_cleanup q = Some s)
  /\ (forall s, q_cleanup q = Some s ->
        (Unsubscribe s ∉ q_calls q) /\ (OnUpdate s ∈ q_calls q)).

End Lifecycle.

(** ** Sequences of callbacks in [src/index.tsx] *)

Module TsxPush.

Definition callback (l : Tsx.Live) (cb : Dist.Callback) : Tsx.Live :=
  match cb with
  | Dist.Data d => Tsx.onData d l
  | Dist.Err e => Tsx.onError e l
  end.

(** The signals after a sequence of callbacks, oldest first. *)
Definition deliver (cbs : list Dist.Callback) (l : Tsx.Live) : Tsx.Live :=
  fold_left callback cbs l.

End TsxPush.

(** ** Events that keep a query disabled, and strays *)

Module Traces.

(** An event that does not enable the query. *)
Definition keeps_disabled (ev : Dist.Event) : Prop :=
  match ev with
  | Dist.Inputs _ opts => enabled opts = Some false
  | _ => True
  end.

(** A settlement that reaches a facade for a call not in flight there. *)
Definition stray (f : Mutation.Facade) (ev : Mutation.Event) : Prop :=
  match ev with
  | Mutation.Settle call _ => Mutation.pending f !! call = None
  | _ => False
  end.

(** An SDK whose constructors accept the addresses that begin with
    "http" and throw for every other url. *)
Definition http_only (url : Value) : option Thrown :=
  match url with
  | VStr s =>
      if String.prefix "http" s then None
      else Some (ThrowError (new_Error "Invalid deployment address"))
  | _ => Some (ThrowError (new_Error "Invalid deployment address"))
  end.

Definition sdk0 : Setup.Sdk :=
  {| Setup.client_throws := fun url _ => http_only url;
     Setup.http_throws := http_only |}.

End Traces.

(** ** Inputs used in the examples *)

Module Samples.

Definition keep : QueryOptions :=
  {| enabled := None; initialData := VUndefined;
     keepPreviousData := Some true |}.

Definition plain : QueryOptions :=
  {| enabled := None; initialData := VUndefined; keepPreviousData := None |}.

Definition boom : Error := new_Error "boom".

(** An interactive client whose local cache holds 7 for every query. *)
Definition client_hit : Client :=
  {| isServer := false; httpClient := false;
     localQueryResult := fun _ => CacheReturns (VNum 7);
     query := fun _ => Fulfilled (VNum 8);
     httpQuery := fun _ => Fulfilled (VNum 9) |}.

(** An interactive client whose local cache has no synchronous answer and
    whose network query fails. *)
Definition client_miss : Client :=
  {| isServer := false; httpClient := false;
     localQueryResult := fun _ => CacheThrows;
     query := fun _ => Rejected (ThrowError boom);
     httpQuery := fun _ => Fulfilled (VNum 9) |}.

(** A server-side client. *)
Definition client_server : Client :=
  {| isServer := true; httpClient := true;
     localQueryResult := fun _ => CacheThrows;
     query := fun _ => Fulfilled (VNum 8);
     httpQuery := fun _ => Fulfilled (VNum 9) |}.

Definition with_initial : QueryOptions :=
  {| enabled := None; initialData := VNum 0; keepPreviousData := None |}.

Definition disabled : QueryOptions :=
  {| enabled := Some false; initialData := VUndefined;
     keepPreviousData := None |}.

End Samples.

(** * Properties *)

Module JsFacts.

Lemma strict_eq_true a b : strict_eq a b = true <-> a = b.
Proof. unfold strict_eq. apply bool_decide_eq_true. Qed.

Lemma strict_eq_refl a : strict_eq a a = true.
Proof. by apply strict_eq_true. Qed.

Lemma truthy_defined v : truthy v = true -> defined v = true.
Proof. by destruct v. Qed.

Lemma and_truthy a b : truthy (and a b) = truthy a && truthy b.
Proof. unfold and. destruct (truthy a) eqn:E; simpl; [done | exact E]. Qed.

Lemma truthy_of_flag p : truthy (of_flag p) = true <-> p = Some true.
Proof. destruct p as [[]|]; simpl; split; congruence. Qed.

Lemma not_defined v : defined v = false <-> v = VUndefined.
Proof. destruct v; simpl; split; congruence. Qed.

(** [String] on the values used in the scenarios. *)
Example String_boom : String (VStr "boom") = "boom".
Proof. reflexivity. Qed.

Example String_42 : String (VNum 42) = "42".
Proof. reflexivity. Qed.

End JsFacts.

(** ** The derived accessors of [dist/index.jsx] *)

Module DistFacts.
Import JsFacts Dist Samples.

Lemma data_live opts live res :
  defined (liveData live) = true -> data opts live res = liveData live.
Proof. unfold data. simpl. by intros ->. Qed.

Lemma data_no_live opts live res :
  defined (liveData live) = false ->
  data opts live res =
    if truthy (and (of_flag (keepPreviousData opts)) (latest res))
    then latest res else value res.
Proof. unfold data. simpl. by intros ->. Qed.

(** The visible data is a function of the Live Slot's data only through
    its definedness: a Live Slot without data is as good as a fresh one. *)
Lemma data_no_live_fresh opts live res :
  liveData live = VUndefined -> data opts live res = data opts live0 res.
Proof. unfold data. simpl. by intros ->. Qed.

(** What the expression of the code gives on any four reads, whether or not
    the runtime can produce them: keepPreviousData together with a truthy
    [resource.latest] shows [resource.latest]; keepPreviousData off or an
    undefined [resource.latest] shows [resource()]. *)
Lemma data_precedence opts live res :
  (defined (liveData live) = true -> data opts live res = liveData live)
  /\ (defined (liveData live) = false ->
      keepPreviousData opts = Some true -> truthy (latest res) = true ->
      data opts live res = latest res)
  /\ (defined (liveData live) = false ->
      keepPreviousData opts <> Some true \/ latest res = VUndefined ->
      data opts live res = value res).
Proof.
  split; [apply data_live |].
  split; intros Hl.
  - intros Hk Ht. rewrite data_no_live, and_truthy, Ht by done.
    by rewrite (proj2 (truthy_of_flag _) Hk).
  - intros Hor. rewrite data_no_live, and_truthy by done.
    destruct Hor as [Hk | ->].
    + destruct (truthy (of_flag (keepPreviousData opts))) eqn:E; [| done].
      by apply truthy_of_flag in E.
    + by rewrite andb_false_r.
Qed.

Lemma data_one_signal opts live res :
  one_signal res -> defined (liveData live) = false ->
  data opts live res = value res.
Proof.
  intros Hone Hl. rewrite data_no_live by done. rewrite <- Hone.
  by destruct (truthy _).
Qed.



(** C3: isLoading is true exactly when a run is in flight and the Live
    Slot holds no defined data; a defined value delivered by the
    subscription ends loading while the fetch is still in flight. *)
Theorem isLoading_iff live res :
  (isLoading live res = true <->
     loading res = true /\ defined (liveData live) = false)
  /\ (forall d, defined d = true ->
        liveData (onData d live) = d
        /\ isLoading (onData d live) res = false).
Proof.
  split.
  - unfold isLoading. rewrite andb_true_iff, negb_true_iff. tauto.
  - intros d Hd. split; [reflexivity |].
    unfold isLoading. simpl. rewrite Hd. apply andb_false_r.
Qed.

Lemma isLoading_iff_witness :
  let res := {| value := VUndefined; res_error := None;
                loading := true; latest := VUndefined |} in
  isLoading live0 res = true
  /\ liveData (onData (VNum 5) live0) = VNum 5
  /\ isLoading (onData (VNum 5) live0) res = false.
Proof.
  intros res. split.
  - apply (proj1 (isLoading_iff live0 res)). split; reflexivity.
  - apply (proj2 (isLoading_iff live0 res) (VNum 5)). reflexivity.
Defined.

(** C4, as the specification words it, fails: the loader has completed
    with 3 and then the subscription delivers an error; the error shows,
    and the data is still 3, not [undefined]. *)
Lemma data_survives_live_error :
  let res := {| value := VNum 3; res_error := None;
                loading := false; latest := VNum 3 |} in
  error (onError boom live0) res = Some boom
  /\ data plain (onError boom live0) res = VNum 3
  /\ data plain (onError boom live0) res <> VUndefined.
Proof. repeat split. discriminate. Qed.

(** C4 (amended): a Live Slot error wins over the Load Slot's error, which
    shows when the Live Slot has none. After the subscription delivers an
    error E, the error is E and the Live Slot's data is undefined, so the
    visible data is what the Load Slot alone gives. *)
Theorem error_precedence opts live res :
  (forall e, liveError live = Some e -> error live res = Some e)
  /\ (liveError live = None -> error live res = res_error res)
  /\ (forall E,
        error (onError E live) res = Some E
        /\ liveData (onError E live) = VUndefined
        /\ data opts (onError E live) res = data opts live0 res).
Proof.
  unfold error. split; [by intros e -> |]. split; [by intros -> |].
  intros E. split; [reflexivity |]. split; [reflexivity |].
  by apply data_no_live_fresh.
Qed.

Lemma error_precedence_witness :
  let res := {| value := VUndefined; res_error := Some (new_Error "net");
                loading := false; latest := VUndefined |} in
  error (onError boom live0) res = Some boom
  /\ error live0 res = Some (new_Error "net").
Proof.
  intros res. split.
  - apply (proj1 (error_precedence plain (onError boom live0) res)).
    reflexivity.
  - apply (proj1 (proj2 (error_precedence plain live0 res))).
    reflexivity.
Defined.

(** What the code computes for isStale: the specification's four
    conditions with "latestCompleted is truthy" in place of
    "latestCompleted exists". *)
Lemma isStale_true_iff opts live res :
  isStale opts live res = true <->
    keepPreviousData opts = Some true /\ loading res = true
    /\ truthy (latest res) = true
    /\ data opts live res = latest res.
Proof.
  unfold isStale, Boolean. rewrite !and_truthy, !andb_true_iff. simpl.
  rewrite truthy_of_flag, strict_eq_true. tauto.
Qed.

Lemma isStale_spec_when_truthy opts live res :
  truthy (latest res) = defined (latest res) ->
  isStale opts live res = Spec.isStale opts res (data opts live res).
Proof.
  intros Ht. unfold isStale, Spec.isStale, Boolean.
  rewrite !and_truthy, Ht. simpl. f_equal. f_equal. f_equal.
  destruct (keepPreviousData opts) as [[]|]; reflexivity.
Qed.

(** C7 on a falsy latestCompleted: keepPreviousData is on, a run is in
    flight, the last completed value is 0 and the visible data is that 0;
    the four conditions of the specification hold and the code answers
    [false]. *)
Theorem isStale_false_on_zero :
  let res := {| value := VNum 0; res_error := None;
                loading := true; latest := VNum 0 |} in
  keepPreviousData keep = Some true
  /\ loading res = true
  /\ defined (latest res) = true
  /\ data keep live0 res = latest res
  /\ Spec.isStale keep res (data keep live0 res) = true
  /\ isStale keep live0 res = false.
Proof. repeat split. Qed.

(** Scenario D: the loader completed with 10 and a new run is in flight. *)
Example scenario_D :
  let res := {| value := VUndefined; res_error := None;
                loading := true; latest := VNum 10 |} in
  data keep live0 res = VNum 10 /\ isStale keep live0 res = true.
Proof. split; reflexivity. Qed.

(** Scenario B: the subscription delivers 5 while the loader is in flight. *)
Example scenario_B :
  let res := {| value := VUndefined; res_error := None;
                loading := true; latest := VUndefined |} in
  let live := onData (VNum 5) live0 in
  data plain live res = VNum 5 /\ isLoading live res = false.
Proof. split; reflexivity. Qed.

End DistFacts.

(** ** The loader of [dist/index.jsx] *)

Module LoaderFacts.
Import JsFacts Dist Samples.

Lemma cache_step_miss c a : cache_miss c a -> cache_step c a = None.
Proof. unfold cache_step. by intros [-> | ->]. Qed.

Lemma cache_step_hit c a r :
  localQueryResult c a = CacheReturns r -> defined r = true ->
  cache_step c a = Some r.
Proof. unfold cache_step. by intros -> ->. Qed.

Lemma cache_step_None c a : cache_step c a = None <-> cache_miss c a.
Proof.
  split; [| apply cache_step_miss].
  unfold cache_step, cache_miss.
  destruct (localQueryResult c a) as [| r]; [by left |].
  destruct r; simpl; try discriminate. by right.
Qed.

(** On an interactive client the loader is the three-step chain followed
    by the network query. *)
Lemma fetcher_client c opts live src :
  isServer c = false ->
  fetcher c opts live src =
    match cache_step c (src_args src) with
    | Some result => Return result
    | None =>
        if defined (initialData opts) && negb (hasReceivedData live)
        then Return (initialData opts)
        else AwaitQuery (src_args src)
    end.
Proof. unfold fetcher. by intros ->. Qed.

Lemma fetcher_never_throws c opts live src r :
  fetcher c opts live src <> Throw r.
Proof.
  unfold fetcher.
  repeat match goal with
         | |- context [if ?b then _ else _] => destruct b
         | |- context [match ?o with Some _ => _ | None => _ end] =>
             destruct o
         end; discriminate.
Qed.

(** C2: the fallback chain of the loader. In a server context a
    configured initialData is returned at once. On the client a defined
    cache read wins; a cache read that throws or gives [undefined] falls
    through; then initialData is returned if configured and no update was
    ever received; otherwise the network query is awaited and the run
    settles as the query does, a rejection included. No run throws
    because the cache read threw. *)
Theorem fetcher_fallback_chain c opts live src :
  let a := src_args src in
  (isServer c = true -> defined (initialData opts) = true ->
     fetcher c opts live src = Return (initialData opts))
  /\ (isServer c = false ->
      forall r, localQueryResult c a = CacheReturns r -> defined r = true ->
      fetcher c opts live src = Return r)
  /\ (isServer c = false -> cache_miss c a ->
      defined (initialData opts) = true -> hasReceivedData live = false ->
      fetcher c opts live src = Return (initialData opts))
  /\ (isServer c = false -> cache_miss c a ->
      defined (initialData opts) = false \/ hasReceivedData live = true ->
      fetcher c opts live src = AwaitQuery a
      /\ settle c (fetcher c opts live src) = query c a)
  /\ (forall r, fetcher c opts live src <> Throw r).
Proof.
  intros a. subst a. split; [| split; [| split; [| split]]].
  - unfold fetcher. by intros -> ->.
  - intros Hs r Hr Hd. rewrite fetcher_client by done.
    by rewrite (cache_step_hit _ _ _ Hr Hd).
  - intros Hs Hm Hi Hh. rewrite fetcher_client by done.
    by rewrite (cache_step_miss _ _ Hm), Hi, Hh.
  - intros Hs Hm Hor. rewrite fetcher_client by done.
    rewrite (cache_step_miss _ _ Hm).
    assert (defined (initialData opts) && negb (hasReceivedData live) = false)
      as -> by (destruct Hor as [-> | ->]; [done | apply andb_false_r]).
    done.
  - apply fetcher_never_throws.
Qed.

Lemma fetcher_fallback_chain_witness :
  let src := {| src_args := VObj 1 |} in
  fetcher client_server with_initial live0 src = Return (VNum 0)
  /\ fetcher client_hit with_initial live0 src = Return (VNum 7)
  /\ fetcher client_miss with_initial live0 src = Return (VNum 0)
  /\ (fetcher client_miss with_initial (onData VNull live0) src
        = AwaitQuery (VObj 1)
      /\ settle client_miss
           (fetcher client_miss with_initial (onData VNull live0) src)
         = Rejected (ThrowError boom)).
Proof.
  intros src. split; [| split; [| split]].
  - apply (proj1 (fetcher_fallback_chain client_server with_initial live0 src));
      reflexivity.
  - apply (proj1 (proj2
             (fetcher_fallback_chain client_hit with_initial live0 src)));
      reflexivity.
  - apply (proj1 (proj2 (proj2
             (fetcher_fallback_chain client_miss with_initial live0 src))));
      [reflexivity | left; reflexivity | reflexivity | reflexivity].
  - apply (proj1 (proj2 (proj2 (proj2
             (fetcher_fallback_chain client_miss with_initial
                (onData VNull live0) src)))));
      [reflexivity | left; reflexivity | right; reflexivity].
Defined.

(** Whether a run on the client reaches the network. *)
Lemma fetcher_network_iff c opts live src :
  isServer c = false ->
  is_network (fetcher c opts live src) = true <->
    cache_miss c (src_args src)
    /\ (defined (initialData opts) = false \/ hasReceivedData live = true).
Proof.
  intros Hs. rewrite fetcher_client by done. rewrite <- cache_step_None.
  destruct (cache_step c (src_args src)); simpl.
  - split; [discriminate | by intros [? _]].
  - destruct (defined (initialData opts)), (hasReceivedData live); simpl;
      intuition discriminate.
Qed.

(** C8, as the specification words it, fails: on a client whose cache
    holds a value for the key, the run started by refetch returns that
    value and reaches no network query. *)
Lemma refetch_served_from_cache :
  let q := useQuery client_hit (VObj 1) plain in
  key q = Some {| src_args := VObj 1 |}
  /\ q_runs (refetch client_hit q) = Return (VNum 7) :: q_runs q
  /\ is_network (Return (VNum 7)) = false.
Proof. repeat split. Qed.

(** C8 (amended): refetch executes the loader once more on the current
    key and changes neither the key nor the subscription nor the Live
    Slot; the run goes through the same chain as any other, and on the
    client it reaches the network query only when the cache has no answer
    and initialData is absent or an update was already received. *)
Theorem refetch_reruns_chain c q :
  key (refetch c q) = key q
  /\ q_calls (refetch c q) = q_calls q
  /\ q_cleanup (refetch c q) = q_cleanup q
  /\ q_live (refetch c q) = q_live q
  /\ q_runs (refetch c q) =
       match key q with
       | Some src => fetcher c (q_opts q) (q_live q) src :: q_runs q
       | None => q_runs q
       end
  /\ (isServer c = false -> forall src,
       is_network (fetcher c (q_opts q) (q_live q) src) = true <->
         cache_miss c (src_args src)
         /\ (defined (initialData (q_opts q)) = false
             \/ hasReceivedData (q_live q) = true)).
Proof.
  unfold refetch, load, key.
  destruct (source (q_opts q) (q_args q)) as [src |] eqn:E; simpl;
    rewrite ?E; repeat (split; [reflexivity |]);
    intros Hs src'; by apply fetcher_network_iff.
Qed.

Lemma refetch_reruns_chain_witness :
  let q := useQuery client_miss (VObj 1) plain in
  q_runs (refetch client_miss q) = AwaitQuery (VObj 1) :: q_runs q
  /\ is_network (fetcher client_miss (q_opts q) (q_live q)
                   {| src_args := VObj 1 |}) = true.
Proof.
  intros q. split.
  - apply (proj1 (proj2 (proj2 (proj2 (proj2
             (refetch_reruns_chain client_miss q)))))).
  - apply (proj2 (proj2 (proj2 (proj2 (proj2
             (refetch_reruns_chain client_miss q)))))
             eq_refl {| src_args := VObj 1 |}).
    split; [left; reflexivity | left; reflexivity].
Defined.

End LoaderFacts.

(** ** The subscription of [dist/index.jsx] *)

Module SubscriptionFacts.
Import JsFacts Dist Samples.

(** *** The callbacks *)

Lemma onData_eq d l :
  onData d l = {| liveData := d; liveError := None; hasReceivedData := true |}.
Proof. reflexivity. Qed.

Lemma onError_eq e l :
  onError e l =
    {| liveData := VUndefined; liveError := Some e; hasReceivedData := true |}.
Proof. reflexivity. Qed.

Lemma deliver_snoc cbs cb l :
  deliver (cbs ++ [cb]) l = callback (deliver cbs l) cb.
Proof. unfold deliver. by rewrite fold_left_app. Qed.

(** Why the writes are batched: after the first write of the success
    callback alone, new data and the old error stand side by side. *)
Remark unbatched_write_tears :
  let l := write (onError boom live0) (SetLiveData (VNum 5)) in
  liveData l = VNum 5 /\ liveError l = Some boom.
Proof. split; reflexivity. Qed.

(** C6: after any sequence of subscription callbacks the Live Slot holds
    no data or no error; the success callback leaves the delivered data
    and no error, the error callback the delivered error and no data,
    each as one batch; the flag is false before the first callback and
    true after any. *)
Theorem live_slot_exclusive (cbs : list Callback) :
  (liveData (deliver cbs live0) = VUndefined
   \/ liveError (deliver cbs live0) = None)
  /\ hasReceivedData (deliver cbs live0)
     = match cbs with [] => false | _ :: _ => true end
  /\ (forall d l,
        onData d l
        = batch [SetLiveData d; SetLiveError None; SetHasReceivedData true] l
        /\ liveData (onData d l) = d
        /\ liveError (onData d l) = None
        /\ hasReceivedData (onData d l) = true)
  /\ (forall e l,
        onError e l
        = batch [SetLiveError (Some e); SetLiveData VUndefined;
                 SetHasReceivedData true] l
        /\ liveError (onError e l) = Some e
        /\ liveData (onError e l) = VUndefined
        /\ hasReceivedData (onError e l) = true).
Proof.
  split; [| split; [| split]].
  - induction cbs as [| cb cbs _] using rev_ind; [by left |].
    rewrite deliver_snoc. destruct cb; [by right | by left].
  - induction cbs as [| cb cbs _] using rev_ind; [done |].
    rewrite deliver_snoc. destruct cbs, cb; reflexivity.
  - intros d l. repeat split.
  - intros e l. repeat split.
Qed.

(** *** The effect *)

Lemma query_run_snoc c evs ev q : run c (evs ++ [ev]) q = step c (run c evs q) ev.
Proof. unfold run. by rewrite fold_left_app. Qed.

Lemma run_cleanup_calls q :
  q_calls (run_cleanup q)
  = match q_cleanup q with
    | Some s => Unsubscribe s :: q_calls q
    | None => q_calls q
    end.
Proof. unfold run_cleanup. by destruct (q_cleanup q). Qed.

Lemma run_cleanup_cleanup q : q_cleanup (run_cleanup q) = None.
Proof. unfold run_cleanup. by destruct (q_cleanup q) eqn:E. Qed.

Lemma run_cleanup_active q :
  active (q_calls q) = option_list (q_cleanup q) ->
  active (q_calls (run_cleanup q)) = [].
Proof.
  intros H. rewrite run_cleanup_calls.
  destruct (q_cleanup q) as [s |]; simpl in *; [| done].
  rewrite H. simpl. rewrite filter_cons_False by (intros Hne; by apply Hne).
  apply filter_nil.
Qed.

Lemma run_cleanup_rest q :
  q_opts (run_cleanup q) = q_opts q /\ q_args (run_cleanup q) = q_args q
  /\ q_live (run_cleanup q) = q_live q /\ q_runs (run_cleanup q) = q_runs q.
Proof. unfold run_cleanup. by destruct (q_cleanup q). Qed.

Lemma tracked_run_cleanup q : tracked q -> tracked (run_cleanup q).
Proof.
  intros [Ha _]. split.
  - by rewrite run_cleanup_active, run_cleanup_cleanup.
  - intros _. apply run_cleanup_cleanup.
Qed.

Lemma tracked_effect q :
  active (q_calls q) = option_list (q_cleanup q) ->
  tracked (subscription_effect q).
Proof.
  intros Ha. unfold subscription_effect.
  destruct (run_cleanup_rest q) as (Ho & _).
  case_bool_decide as He.
  - split; [| intros _; apply run_cleanup_cleanup].
    by rewrite run_cleanup_active, run_cleanup_cleanup.
  - split; simpl.
    + by rewrite run_cleanup_active.
    + rewrite Ho. done.
Qed.

Lemma load_rest c q :
  q_opts (load c q) = q_opts q /\ q_args (load c q) = q_args q
  /\ q_live (load c q) = q_live q /\ q_calls (load c q) = q_calls q
  /\ q_cleanup (load c q) = q_cleanup q.
Proof. unfold load. by destruct (key q). Qed.

Lemma load_disabled c q :
  enabled (q_opts q) = Some false -> load c q = q.
Proof.
  intros He. unfold load, key, source. by rewrite bool_decide_eq_true_2.
Qed.

Lemma tracked_step c q ev : tracked q -> tracked (step c q ev).
Proof.
  intros [Ha Hd]. destruct ev as [args opts | cb | |]; simpl.
  - apply tracked_effect.
    destruct (load_rest c (with_inputs args opts q)) as (_ & _ & _ & -> & ->).
    exact Ha.
  - by split.
  - unfold refetch. destruct (load_rest c q) as (Ho & _ & _ & Hc & Hu).
    split; rewrite ?Hc, ?Hu, ?Ho; done.
  - by apply tracked_run_cleanup.
Qed.

Lemma tracked_useQuery c args opts : tracked (useQuery c args opts).
Proof.
  unfold useQuery. apply tracked_effect.
  by destruct (load_rest c
    {| q_args := args; q_opts := opts; q_live := live0; q_cleanup := None;
       q_next := 0; q_calls := []; q_runs := [] |}) as (_ & _ & _ & -> & ->).
Qed.

Lemma tracked_run c evs q : tracked q -> tracked (run c evs q).
Proof.
  induction evs as [| ev evs IH] using rev_ind; [done |].
  intros Hq. rewrite query_run_snoc. by apply tracked_step, IH.
Qed.

Lemma effect_disabled q :
  enabled (q_opts q) = Some false -> subscription_effect q = run_cleanup q.
Proof.
  intros He. unfold subscription_effect. by rewrite bool_decide_eq_true_2.
Qed.

Lemma key_disabled q : enabled (q_opts q) = Some false -> key q = None.
Proof. intros He. unfold key, source. by rewrite bool_decide_eq_true_2. Qed.

Lemma quiet_mount c args opts :
  enabled opts = Some false ->
  useQuery c args opts
  = {| q_args := args; q_opts := opts; q_live := live0; q_cleanup := None;
       q_next := 0; q_calls := []; q_runs := [] |}.
Proof.
  intros He. unfold useQuery.
  rewrite load_disabled, effect_disabled by done. reflexivity.
Qed.

Lemma quiet_step c q ev :
  enabled (q_opts q) = Some false -> q_cleanup q = None ->
  Traces.keeps_disabled ev ->
  q_runs (step c q ev) = q_runs q
  /\ q_calls (step c q ev) = q_calls q
  /\ q_cleanup (step c q ev) = None
  /\ enabled (q_opts (step c q ev)) = Some false.
Proof.
  intros He Hc Hev. destruct ev as [args opts | cb | |]; simpl in *.
  - set (qi := with_inputs args opts q).
    assert (enabled (q_opts qi) = Some false) as Hi by exact Hev.
    rewrite load_disabled, effect_disabled by done.
    unfold run_cleanup. by rewrite (Hc : q_cleanup qi = None).
  - done.
  - unfold refetch. by rewrite load_disabled.
  - unfold run_cleanup. by rewrite Hc.
Qed.

Lemma quiet_run c a0 o0 evs :
  enabled o0 = Some false -> Forall Traces.keeps_disabled evs ->
  let q := run c evs (useQuery c a0 o0) in
  q_runs q = [] /\ q_calls q = [] /\ q_cleanup q = None
  /\ enabled (q_opts q) = Some false.
Proof.
  intros He. induction evs as [| ev evs IH] using rev_ind; intros Hevs.
  - simpl. by rewrite quiet_mount.
  - apply Forall_app in Hevs as [Hevs Hev]. rewrite Forall_singleton in Hev.
    destruct (IH Hevs) as (Hr & Hc & Hu & Ho).
    rewrite query_run_snoc.
    destruct (quiet_step c _ ev Ho Hu Hev) as (Hr' & Hc' & Hu' & Ho').
    cbv zeta. by rewrite Hr', Hc', Hr, Hc.
Qed.

(** C5: while the options say [enabled === false] the key is the sentinel,
    so that neither a change of inputs nor refetch executes the loader,
    and no subscription is active. The run of the effect that sees
    [enabled === false] makes one call to the client at most, the
    unsubscribe of the subscription it finds, and leaves the Live Slot as
    it was. A query that is mounted disabled and never enabled has run no
    loader and made no call to the client at all; and in a disabled state
    no event that keeps the query disabled runs the loader or calls the
    client. *)
Theorem disabled_query c a0 o0 evs :
  let q := run c evs (useQuery c a0 o0) in
  (enabled (q_opts q) = Some false ->
     key q = None
     /\ q_runs (refetch c q) = q_runs q
     /\ q_cleanup q = None
     /\ active (q_calls q) = [])
  /\ (forall args opts, enabled opts = Some false ->
       let q' := step c q (Inputs args opts) in
       key q' = None
       /\ q_runs q' = q_runs q
       /\ q_cleanup q' = None
       /\ active (q_calls q') = []
       /\ q_calls q' = match q_cleanup q with
                       | Some s => Unsubscribe s :: q_calls q
                       | None => q_calls q
                       end
       /\ q_live q' = q_live q)
  /\ (enabled o0 = Some false ->
      q_runs (useQuery c a0 o0) = []
      /\ q_calls (useQuery c a0 o0) = []
      /\ q_live (useQuery c a0 o0) = live0
      /\ (Forall Traces.keeps_disabled evs ->
          q_runs q = [] /\ q_calls q = []))
  /\ (enabled (q_opts q) = Some false ->
      forall ev, Traces.keeps_disabled ev ->
      q_runs (step c q ev) = q_runs q
      /\ q_calls (step c q ev) = q_calls q).
Proof.
  intros q.
  assert (tracked q) as [Ha Hd] by apply tracked_run, tracked_useQuery.
  split; [| split; [| split]].
  - intros He. split; [by apply key_disabled |].
    split; [unfold refetch; by rewrite load_disabled |].
    split; [by apply Hd |]. by rewrite Ha, Hd.
  - intros args opts He q'. subst q'. simpl.
    set (qi := with_inputs args opts q).
    assert (enabled (q_opts qi) = Some false) as Hi by exact He.
    rewrite load_disabled, effect_disabled by done.
    destruct (run_cleanup_rest qi) as (Ho & Hargs & Hl & Hr).
    split; [apply key_disabled; by rewrite Ho |].
    split; [by rewrite Hr |].
    split; [apply run_cleanup_cleanup |].
    split; [apply (run_cleanup_active qi); exact Ha |].
    split; [exact (run_cleanup_calls qi) | by rewrite Hl].
  - intros He. rewrite quiet_mount by done. simpl.
    repeat (split; [reflexivity |]).
    intros Hevs. by destruct (quiet_run c a0 o0 evs He Hevs) as (? & ? & _).
  - intros He ev Hev.
    by destruct (quiet_step c q ev He (Hd He) Hev) as (? & ? & _).
Qed.

Lemma disabled_query_witness :
  let s0 := {| sub_id := 0; sub_args := VObj 1 |} in
  let q := run client_hit [Update (Data (VNum 5))]
             (useQuery client_hit (VObj 1) plain) in
  let q' := step client_hit q (Inputs (VObj 1) disabled) in
  let never := run client_hit [Inputs (VObj 2) disabled; Refetch]
                 (useQuery client_hit (VObj 1) disabled) in
  (q_cleanup q = Some s0 /\ q_runs q = [Return (VNum 7)])
  /\ key q' = None
  /\ q_runs q' = [Return (VNum 7)]
  /\ q_runs (refetch client_hit q') = [Return (VNum 7)]
  /\ active (q_calls q') = []
  /\ q_calls q' = [Unsubscribe s0; OnUpdate s0]
  /\ liveData (q_live q') = VNum 5
  /\ q_runs (useQuery client_hit (VObj 1) disabled) = []
  /\ q_calls (useQuery client_hit (VObj 1) disabled) = []
  /\ (q_runs never = [] /\ q_calls never = [])
  /\ q_calls (step client_hit q' (Update (Err boom))) = q_calls q'.
Proof.
  intros s0 q q' never. split; [split; reflexivity |].
  pose proof (disabled_query client_hit (VObj 1) plain
                [Update (Data (VNum 5))]) as (_ & Hstep & _).
  pose proof (Hstep (VObj 1) disabled eq_refl) as H. cbv zeta in H.
  destruct H as (Hk & Hr & _ & Ha & Hc & Hl).
  pose proof (disabled_query client_hit (VObj 1) plain
                [Update (Data (VNum 5)); Inputs (VObj 1) disabled])
    as (Hstate & _ & _ & Hquiet).
  destruct (Hstate eq_refl) as (_ & Hre & _ & _).
  pose proof (disabled_query client_hit (VObj 1) disabled
                [Inputs (VObj 2) disabled; Refetch]) as (_ & _ & Hnever & _).
  destruct (Hnever eq_refl) as (Hm1 & Hm2 & _ & Hall).
  split; [exact Hk |]. split; [exact Hr |]. split; [exact Hre |].
  split; [exact Ha |]. split; [exact Hc |].
  split; [exact (f_equal liveData Hl) |].
  split; [exact Hm1 |]. split; [exact Hm2 |].
  split.
  - apply Hall. repeat constructor.
  - exact (proj2 (Hquiet eq_refl (Update (Err boom)) I)).
Defined.

End SubscriptionFacts.

(** ** The mutation and action facades *)

Module MutationFacts.
Import JsFacts Mutation Samples.

(** C9: [mutate] and [mutateAsync] are one function, for mutations and for
    actions. When the awaited call rejects with [v], the state becomes the
    normalized error with [isLoading] false and the promise rejects with
    that same error, which is [v] itself when [v] is an [Error] and an
    [Error] whose message is [String(v)] otherwise. When the call fulfils
    with a result, the state becomes that result with [isLoading] false
    and the promise fulfils with it. *)
Theorem mutate_settles (args : Args) :
  Api.mutate useMutation = Api.mutateAsync useMutation
  /\ Api.mutate useAction = Api.mutateAsync useAction
  /\ awaits (Api.mutateAsync useMutation args) = ClientMutation args
  /\ awaits (Api.mutateAsync useAction args) = ClientAction args
  /\ after (Api.mutateAsync useAction args)
     = after (Api.mutateAsync useMutation args)
  /\ (forall v,
        after (Api.mutateAsync useMutation args) (Rejected v)
        = ({| data := VUndefined; error := Some (normalize v);
              isLoading := false |},
           Rejected (ThrowError (normalize v))))
  /\ (forall e, normalize (ThrowError e) = e)
  /\ (forall x, normalize (ThrowValue x) = new_Error (String x))
  /\ (forall result,
        after (Api.mutateAsync useMutation args) (Fulfilled result)
        = ({| data := result; error := None; isLoading := false |},
           Fulfilled result))
  /\ (forall api f outcome,
        let call := started f in
        let f' := step api (step api f (Start args)) (Settle call outcome) in
        state f' = fst (after (Api.mutate api args) outcome)
        /\ pending f' !! call = None).
Proof.
  repeat (split; [reflexivity |]).
  intros api f outcome call f'. subst call f'. simpl.
  rewrite lookup_insert_eq. simpl. split; [reflexivity |].
  apply lookup_delete_eq.
Qed.

(** Scenario E: the call rejects with the string "boom". *)
Example scenario_E :
  let '(st, promise) :=
    after (Api.mutateAsync useMutation VNull) (Rejected (ThrowValue (VStr "boom")))
  in
  message <$> error st = Some "boom"
  /\ isLoading st = false
  /\ promise = Rejected (ThrowError boom).
Proof. repeat split. Qed.

Lemma facade_run_snoc api evs ev f :
  run api (evs ++ [ev]) f = step api (run api evs f) ev.
Proof. unfold run. by rewrite fold_left_app. Qed.

Lemma sound_settled outcome : sound (fst (settled outcome)).
Proof. destruct outcome; (split; [by auto | discriminate]). Qed.

Section AnyFacade.
Variable api : Api.MutationReturn.
Hypothesis api_is : api = useMutation \/ api = useAction.

Lemma api_before args : before (Api.mutate api args) = in_flight.
Proof using api_is. by destruct api_is as [-> | ->]. Qed.

Lemma api_after args : after (Api.mutate api args) = settled.
Proof using api_is. by destruct api_is as [-> | ->]. Qed.

Lemma api_reset : Api.reset api = idle.
Proof using api_is. by destruct api_is as [-> | ->]. Qed.

Lemma step_invariant f ev :
  sound (state f) /\ consistent f ->
  sound (state (step api f ev)) /\ consistent (step api f ev).
Proof using api_is.
  intros [Hs (Hp & Hw & Hn)]. destruct ev as [args | call outcome |]; simpl.
  - rewrite api_before. split; [by split; auto |].
    split; [| split]; simpl; [| done | done].
    intros k body. rewrite lookup_insert. case_decide as Hk.
    + intros [= <-]. subst k. split; [lia | apply api_after].
    + intros Hb. destruct (Hp _ _ Hb). split; [lia | done].
  - destruct (pending f !! call) as [body |] eqn:Hc; [| by split].
    destruct (Hp _ _ Hc) as [Hlt Hafter]. simpl. rewrite Hafter.
    split; [apply sound_settled |].
    split; [| split]; simpl; [| | done].
    + intros k b. rewrite lookup_delete. case_decide; [done |]. apply Hp.
    + intros w [= <-]. by rewrite lookup_delete_eq.
  - rewrite api_reset. split; [by split; auto |].
    split; [| split]; simpl; [done | done | done].
Qed.

Lemma run_invariant evs :
  sound (state (run api evs facade0)) /\ consistent (run api evs facade0).
Proof using api_is.
  induction evs as [| ev evs IH] using rev_ind.
  - split; [by split; auto |]. split; [| split]; simpl; [| done | done].
    intros k body. by rewrite lookup_empty.
  - rewrite facade_run_snoc. by apply step_invariant.
Qed.
End AnyFacade.

(** C10, as the specification words it, fails: two calls overlap and the
    earlier one settles first; its result is visible, with [isLoading]
    false, while the later call is still in flight. *)
Lemma earlier_result_shows_during_later_call :
  let f := run useMutation
             [Start (VNum 1); Start (VNum 2);
              Settle 0 (Fulfilled (VStr "first"))] facade0 in
  awaits <$> pending f !! 1 = Some (ClientMutation (VNum 2))
  /\ writer f = Some 0
  /\ data (state f) = VStr "first"
  /\ isLoading (state f) = false.
Proof. vm_compute. repeat split. Qed.

(** C10 (amended): in every reachable state of a mutation or action
    facade, data and error are not both defined and both are undefined
    while [isLoading] is true. Starting a call replaces the state by
    [{ isLoading: true }], whatever it held. What is visible afterwards
    was written by a call that has settled since, which under overlapping
    calls can be one that started earlier. *)
Theorem facade_state_invariant api evs :
  api = useMutation \/ api = useAction ->
  let f := run api evs facade0 in
  (data (state f) = VUndefined \/ error (state f) = None)
  /\ (isLoading (state f) = true ->
      data (state f) = VUndefined /\ error (state f) = None)
  /\ (forall args,
        state (step api f (Start args)) = in_flight
        /\ writer (step api f (Start args)) = None)
  /\ (forall w, writer f = Some w -> pending f !! w = None)
  /\ (writer f = None ->
      data (state f) = VUndefined /\ error (state f) = None).
Proof.
  intros Hapi f.
  destruct (run_invariant api Hapi evs) as [[Hx Hl] (Hp & Hw & Hn)].
  split; [exact Hx |]. split; [exact Hl |].
  split; [intros args; simpl; by rewrite api_before |].
  split; [intros w Hwr; by destruct (Hw w Hwr) | exact Hn].
Qed.

Lemma facade_state_invariant_witness :
  let done_ := run useMutation
                 [Start VNull; Settle 0 (Fulfilled (VNum 1))] facade0 in
  let again := run useMutation
                 [Start VNull; Settle 0 (Fulfilled (VNum 1)); Start VNull]
                 facade0 in
  (data (state done_) = VNum 1 /\ pending done_ !! 0 = None)
  /\ state (step useMutation done_ (Start VNull)) = in_flight
  /\ (data (state again) = VUndefined /\ error (state again) = None).
Proof.
  intros done_ again.
  pose proof (facade_state_invariant useMutation
                [Start VNull; Settle 0 (Fulfilled (VNum 1))]
                (or_introl eq_refl)) as H1. cbv zeta in H1.
  pose proof (facade_state_invariant useMutation
                [Start VNull; Settle 0 (Fulfilled (VNum 1)); Start VNull]
                (or_introl eq_refl)) as H2. cbv zeta in H2.
  destruct H1 as (_ & _ & Hstart & Hw & _).
  destruct H2 as (_ & Hload & _).
  split; [split; [reflexivity | exact (Hw 0 eq_refl)] |].
  split; [exact (proj1 (Hstart VNull)) | exact (Hload eq_refl)].
Defined.

End MutationFacts.

(** ** The revision [src/index.tsx], for comparison *)

Module TsxFacts.
Import JsFacts Samples.

(** The visible data of this revision does not read the Live Slot; it is
    the rule of the specification for an empty Live Slot, with "truthy"
    for "exists". *)
Lemma data_is_spec_without_live opts res :
  truthy (latest res) = defined (latest res) ->
  Tsx.data opts res = Spec.data opts Dist.live0 res.
Proof.
  intros Ht. unfold Tsx.data, Spec.data. simpl.
  rewrite !and_truthy, Ht. simpl.
  by destruct (keepPreviousData opts) as [[]|].
Qed.

(** Its error is the Load Slot's alone. *)
Lemma error_is_load_error res : Tsx.error res = res_error res.
Proof. reflexivity. Qed.

(** Its loader never reaches the network on an interactive client. *)
Lemma fetcher_client_offline c opts live src :
  isServer c = false -> is_network (Tsx.fetcher c opts live src) = false.
Proof.
  intros Hs. unfold Tsx.fetcher. rewrite Hs. simpl.
  destruct (cache_step c (Tsx.src_args src)); [done |].
  destruct (Tsx.liveError live); [done |].
  by repeat match goal with
            | |- context [if ?b then _ else _] => destruct b
            end.
Qed.

(** Its loader hands the Live Slot's error and data on when the cache has
    no answer. *)
Lemma fetcher_passes_live_on c opts live src :
  isServer c = false -> cache_step c (Tsx.src_args src) = None ->
  (forall e, Tsx.liveError live = Some e ->
     Tsx.fetcher c opts live src = Throw (ThrowError e))
  /\ (Tsx.liveError live = None -> defined (Tsx.liveData live) = true ->
      Tsx.fetcher c opts live src = Return (Tsx.liveData live)).
Proof.
  intros Hs Hc. unfold Tsx.fetcher. rewrite Hs, Hc. simpl.
  split; [by intros e -> | by intros -> ->].
Qed.

(** Every callback changes the key of the resource. *)
Lemma callbacks_change_key opts args live d e :
  enabled opts <> Some false ->
  Tsx.source opts args (Tsx.onData d live) <> Tsx.source opts args live
  /\ Tsx.source opts args (Tsx.onError e live) <> Tsx.source opts args live.
Proof.
  intros He. unfold Tsx.source. rewrite bool_decide_eq_false_2 by done.
  split; intros [= H]; lia.
Qed.

(** Its isLoading reads the visible data, and by truthiness. *)
Example isLoading_on_zero :
  let res := {| value := VNum 0; res_error := None;
                loading := true; latest := VNum 0 |} in
  Tsx.isLoading plain res = true.
Proof. reflexivity. Qed.

(** Scenario B in this revision: the value 5 delivered by the subscription
    is in the Live Slot, the run it triggered is in flight, and the
    accessors, which read the resource alone, still say loading. *)
Example scenario_B_still_loading :
  let live := Tsx.onData (VNum 5) Tsx.live0 in
  let res := {| value := VUndefined; res_error := None;
                loading := true; latest := VUndefined |} in
  Tsx.liveData live = VNum 5
  /\ Tsx.data plain res = VUndefined
  /\ Tsx.isLoading plain res = true.
Proof. repeat split. Qed.

End TsxFacts.

(** * Further properties of the code *)

(** ** The life of the subscription *)

Module LifecycleFacts.
Import JsFacts Dist Lifecycle Samples SubscriptionFacts.

Lemma current_effect q : current (subscription_effect q).
Proof.
  unfold subscription_effect, current.
  destruct (run_cleanup_rest q) as (Ho & Ha & _).
  case_bool_decide as He; intros s.
  - by rewrite run_cleanup_cleanup.
  - simpl. intros [= <-]. simpl. by rewrite Ho, Ha.
Qed.

Lemma current_step c q ev : current q -> current (step c q ev).
Proof.
  intros Hq. destruct ev as [args opts | cb | |]; simpl.
  - apply current_effect.
  - exact Hq.
  - unfold refetch, current.
    destruct (load_rest c q) as (-> & -> & _ & _ & ->). exact Hq.
  - intros s. by rewrite run_cleanup_cleanup.
Qed.

Lemma current_run c evs a0 o0 : current (run c evs (useQuery c a0 o0)).
Proof.
  induction evs as [| ev evs IH] using rev_ind.
  - apply current_effect.
  - rewrite query_run_snoc. by apply current_step.
Qed.

(** X1: at every reachable state of a call site at most one subscription
    is active, and an active one is for the current arguments of a query
    that is not disabled. *)
Theorem one_subscription_for_current_args c a0 o0 evs s :
  let q := run c evs (useQuery c a0 o0) in
  s ∈ active (q_calls q) ->
  active (q_calls q) = [s]
  /\ sub_args s = q_args q
  /\ enabled (q_opts q) <> Some false.
Proof.
  intros q Hs.
  assert (tracked q) as [Ha _] by apply tracked_run, tracked_useQuery.
  pose proof (current_run c evs a0 o0) as Hc. fold q in Hc.
  rewrite Ha in Hs |- *.
  destruct (q_cleanup q) as [s' |] eqn:E; simpl in *.
  - apply list_elem_of_singleton in Hs as ->. split; [done |]. by apply Hc.
  - by apply elem_of_nil in Hs.
Qed.

Lemma one_subscription_for_current_args_witness :
  let q := run client_hit [Inputs (VObj 2) keep; Refetch]
             (useQuery client_hit (VObj 1) plain) in
  let s := {| sub_id := 1; sub_args := VObj 2 |} in
  active (q_calls q) = [s] /\ sub_args s = q_args q
  /\ enabled (q_opts q) <> Some false.
Proof.
  intros q s.
  apply (one_subscription_for_current_args client_hit (VObj 1) plain
           [Inputs (VObj 2) keep; Refetch] s).
  vm_compute. apply list_elem_of_here.
Defined.

(** *** The record of calls *)

Lemma logged_run_cleanup q : logged q -> logged (run_cleanup q).
Proof.
  intros Hq. pose proof Hq as (Hf & Hn & Hu & Ho & Hc). unfold run_cleanup.
  destruct (q_cleanup q) as [s |] eqn:E; [| exact Hq].
  destruct (Hc s eq_refl) as [Hnu Hon].
  split; [| split; [| split; [| split]]]; simpl.
  - constructor; [| done].
    rewrite Forall_forall in Hf. exact (Hf _ Hon).
  - by constructor.
  - intros s'. rewrite !elem_of_cons.
    intros [[= ->] | H]; right; [done | by apply Hu].
  - intros s'. rewrite !elem_of_cons. intros [[=] | H].
    destruct (Ho s' H) as [? | [= ->]]; left; [by right | by left].
  - done.
Qed.

Lemma logged_subscribe args2 q :
  q_cleanup q = None -> logged q -> logged (subscribe args2 q).
Proof.
  intros E (Hf & Hn & Hu & Ho & Hc). unfold subscribe.
  set (s := {| sub_id := q_next q; sub_args := args2 |}).
  assert (forall call, call ∈ q_calls q -> sub_of call <> s) as Hfresh.
  { intros call Hin Heq. rewrite Forall_forall in Hf.
    specialize (Hf _ Hin). rewrite Heq in Hf. simpl in Hf. lia. }
  split; [| split; [| split; [| split]]]; simpl.
  - constructor; [simpl; lia |].
    eapply Forall_impl; [exact Hf |]. simpl. intros; lia.
  - constructor; [| done]. intros Hin. by apply (Hfresh _ Hin).
  - intros s'. rewrite !elem_of_cons.
    intros [[=] | H]. right. by apply Hu.
  - intros s'. rewrite !elem_of_cons. intros [[= ->] | H]; [by right |].
    destruct (Ho s' H) as [? | ?]; [left; by right | congruence].
  - intros s' [= <-]. split; [| by left].
    rewrite elem_of_cons. intros [[=] | Hin]. by apply (Hfresh _ Hin).
Qed.

Lemma logged_effect q : logged q -> logged (subscription_effect q).
Proof.
  intros Hq. unfold subscription_effect.
  case_bool_decide; [by apply logged_run_cleanup |].
  apply logged_subscribe; [apply run_cleanup_cleanup |].
  by apply logged_run_cleanup.
Qed.

Lemma logged_same q q' :
  q_calls q' = q_calls q -> q_cleanup q' = q_cleanup q ->
  q_next q' = q_next q -> logged q -> logged q'.
Proof. unfold logged. by intros -> -> ->. Qed.

Lemma load_next c q : q_next (load c q) = q_next q.
Proof. unfold load. by destruct (key q). Qed.

Lemma logged_load c q : logged q -> logged (load c q).
Proof.
  destruct (load_rest c q) as (_ & _ & _ & Hc & Hu).
  apply logged_same; [done | done | apply load_next].
Qed.

Lemma logged_step c q ev : logged q -> logged (step c q ev).
Proof.
  intros Hq. destruct ev as [args opts | cb | |]; simpl.
  - apply logged_effect, logged_load. revert Hq. by apply logged_same.
  - revert Hq. by apply logged_same.
  - by apply logged_load.
  - by apply logged_run_cleanup.
Qed.

Lemma logged_run c evs a0 o0 : logged (run c evs (useQuery c a0 o0)).
Proof.
  induction evs as [| ev evs IH] using rev_ind.
  - unfold useQuery. apply logged_effect, logged_load.
    split; [constructor |]. split; [constructor |].
    split; [intros s Hs; by apply elem_of_nil in Hs |].
    split; [intros s Hs; by apply elem_of_nil in Hs | done].
  - rewrite query_run_snoc. by apply logged_step.
Qed.

(** X2: in the calls a call site makes to the client, no subscription is
    made twice or unsubscribed twice, and only subscriptions that were made
    are unsubscribed. Disposing the scope leaves every subscription that
    was made unsubscribed, and disposing again makes no further call. *)
Theorem subscriptions_released_once c a0 o0 evs :
  let q := run c evs (useQuery c a0 o0) in
  NoDup (q_calls q)
  /\ (forall s, Unsubscribe s ∈ q_calls q -> OnUpdate s ∈ q_calls q)
  /\ (forall s, OnUpdate s ∈ q_calls (step c q Dispose) ->
        Unsubscribe s ∈ q_calls (step c q Dispose))
  /\ active (q_calls (step c q Dispose)) = []
  /\ step c (step c q Dispose) Dispose = step c q Dispose.
Proof.
  intros q.
  destruct (logged_run c evs a0 o0) as (_ & Hn & Hu & _). fold q in Hn, Hu.
  split; [exact Hn |]. split; [exact Hu |].
  pose proof (logged_run c (evs ++ [Dispose]) a0 o0) as (_ & _ & _ & Ho & _).
  rewrite query_run_snoc in Ho. fold q in Ho.
  assert (q_cleanup (step c q Dispose) = None) as Hnone
    by apply run_cleanup_cleanup.
  split.
  - intros s Hs. destruct (Ho s Hs) as [? | Hc]; [done |].
    rewrite Hnone in Hc. discriminate.
  - split.
    + apply run_cleanup_active.
      by assert (tracked q) as [Ha _] by apply tracked_run, tracked_useQuery.
    + simpl. unfold run_cleanup at 1. by rewrite run_cleanup_cleanup.
Qed.

Lemma subscriptions_released_once_witness :
  let q := run client_hit [Inputs (VObj 2) plain]
             (useQuery client_hit (VObj 1) plain) in
  let s0 := {| sub_id := 0; sub_args := VObj 1 |} in
  let s1 := {| sub_id := 1; sub_args := VObj 2 |} in
  q_calls (step client_hit q Dispose)
    = [Unsubscribe s1; OnUpdate s1; Unsubscribe s0; OnUpdate s0]
  /\ Unsubscribe s1 ∈ q_calls (step client_hit q Dispose)
  /\ OnUpdate s0 ∈ q_calls q.
Proof.
  intros q s0 s1. split; [reflexivity |].
  destruct (subscriptions_released_once client_hit (VObj 1) plain
              [Inputs (VObj 2) plain]) as (_ & Hu & Hd & _).
  split.
  - apply Hd. vm_compute. apply list_elem_of_further, list_elem_of_here.
  - apply Hu. vm_compute. apply list_elem_of_further, list_elem_of_here.
Defined.

Lemma inputs_resubscribe_runs c q args opts :
  enabled opts <> Some false ->
  q_runs (step c q (Inputs args opts))
  = fetcher c opts (q_live q) {| src_args := args |} :: q_runs q.
Proof.
  intros He. simpl. unfold subscription_effect.
  destruct (load_rest c (with_inputs args opts q)) as (-> & -> & _).
  simpl. rewrite bool_decide_eq_false_2 by done. simpl.
  destruct (run_cleanup_rest (load c (with_inputs args opts q)))
    as (_ & _ & _ & ->).
  unfold load, key, source. simpl. by rewrite bool_decide_eq_false_2.
Qed.

(** X3: when the inputs change and the query is not disabled, the effect
    first unsubscribes the subscription it finds and then subscribes for the
    new arguments, which leaves that one subscription active; the loader runs
    once, on the new arguments and with the Live Slot as it is, and the Live
    Slot is not touched. *)
Theorem inputs_resubscribe c a0 o0 evs args opts :
  enabled opts <> Some false ->
  let q := run c evs (useQuery c a0 o0) in
  let q' := step c q (Inputs args opts) in
  let s := {| sub_id := q_next q; sub_args := args |} in
  q_calls q' = OnUpdate s :: match q_cleanup q with
                             | Some old => Unsubscribe old :: q_calls q
                             | None => q_calls q
                             end
  /\ active (q_calls q') = [s]
  /\ q_runs q' = fetcher c opts (q_live q) {| src_args := args |} :: q_runs q
  /\ q_live q' = q_live q.
Proof.
  intros He q q' s.
  assert (tracked q') as [Ha _].
  { subst q' q. rewrite <- query_run_snoc. apply tracked_run, tracked_useQuery. }
  assert (q' = subscribe args
                 (run_cleanup (load c (with_inputs args opts q)))) as Hq'.
  { subst q'. simpl. unfold subscription_effect.
    destruct (load_rest c (with_inputs args opts q)) as (-> & -> & _).
    simpl. by rewrite bool_decide_eq_false_2. }
  assert (load c (with_inputs args opts q)
          = {| q_args := args; q_opts := opts; q_live := q_live q;
               q_cleanup := q_cleanup q; q_next := q_next q;
               q_calls := q_calls q;
               q_runs := fetcher c opts (q_live q) {| src_args := args |}
                           :: q_runs q |}) as Hload.
  { unfold load, key, source. simpl. by rewrite bool_decide_eq_false_2. }
  assert (q_calls q' = OnUpdate s :: match q_cleanup q with
                                     | Some old => Unsubscribe old :: q_calls q
                                     | None => q_calls q
                                     end) as Hcalls.
  { rewrite Hq', Hload. unfold run_cleanup. simpl.
    by destruct (q_cleanup q). }
  split; [exact Hcalls |].
  split.
  - rewrite Ha, Hq', Hload. unfold run_cleanup. simpl.
    by destruct (q_cleanup q).
  - rewrite Hq', Hload. unfold run_cleanup. simpl.
    by destruct (q_cleanup q).
Qed.

Lemma inputs_resubscribe_witness :
  let q := useQuery client_hit (VObj 1) plain in
  let q' := step client_hit q (Inputs (VObj 2) keep) in
  let s0 := {| sub_id := 0; sub_args := VObj 1 |} in
  let s1 := {| sub_id := 1; sub_args := VObj 2 |} in
  q_calls q' = [OnUpdate s1; Unsubscribe s0; OnUpdate s0]
  /\ active (q_calls q') = [s1]
  /\ q_runs q' = [Return (VNum 7); Return (VNum 7)]
  /\ q_live q' = live0.
Proof.
  intros q q' s0 s1.
  apply (inputs_resubscribe client_hit (VObj 1) plain [] (VObj 2) keep).
  discriminate.
Defined.

Lemma received_step c q ev :
  hasReceivedData (q_live q) = true ->
  hasReceivedData (q_live (step c q ev)) = true.
Proof.
  intros H. destruct ev as [args opts | [d | e] | |]; simpl; try done.
  - unfold subscription_effect.
    destruct (run_cleanup_rest (load c (with_inputs args opts q)))
      as (_ & _ & Hl & _).
    destruct (load_rest c (with_inputs args opts q)) as (_ & _ & Hl' & _).
    case_bool_decide; simpl; by rewrite Hl, Hl'.
  - unfold refetch. by destruct (load_rest c q) as (_ & _ & -> & _).
  - by destruct (run_cleanup_rest q) as (_ & _ & -> & _).
Qed.

Lemma received_run c evs q :
  hasReceivedData (q_live q) = true ->
  hasReceivedData (q_live (run c evs q)) = true.
Proof.
  induction evs as [| ev evs IH] using rev_ind; [done |].
  intros H. rewrite query_run_snoc. by apply received_step, IH.
Qed.

(** X5: the flag set by the first callback is never cleared, whatever
    happens to the inputs afterwards. So once a call site has received an
    update, a run of the loader on the client never returns initialData:
    after a later change of arguments it returns the cached value or
    awaits the network query. *)
Theorem initial_data_only_before_first_update
    c a0 o0 evs1 cb evs2 args opts :
  isServer c = false ->
  enabled opts <> Some false ->
  let q := run c (evs1 ++ Update cb :: evs2) (useQuery c a0 o0) in
  hasReceivedData (q_live q) = true
  /\ q_runs (step c q (Inputs args opts))
     = match cache_step c args with
       | Some r => Return r
       | None => AwaitQuery args
       end :: q_runs q.
Proof.
  intros Hs He q.
  assert (hasReceivedData (q_live q) = true) as Hr.
  { subst q. unfold run. rewrite fold_left_app. simpl.
    apply received_run. by destruct cb. }
  split; [exact Hr |].
  rewrite (inputs_resubscribe_runs c q args opts He).
  f_equal. unfold fetcher. rewrite Hs, Hr. simpl.
  by rewrite andb_false_r.
Qed.

Lemma initial_data_only_before_first_update_witness :
  let q := run client_miss [Update (Err boom); Inputs (VObj 1) disabled]
             (useQuery client_miss (VObj 1) with_initial) in
  q_runs (useQuery client_miss (VObj 1) with_initial) = [Return (VNum 0)]
  /\ hasReceivedData (q_live q) = true
  /\ q_runs (step client_miss q (Inputs (VObj 2) with_initial))
     = [AwaitQuery (VObj 2); Return (VNum 0)].
Proof.
  split; [reflexivity |].
  apply (initial_data_only_before_first_update client_miss (VObj 1)
           with_initial [] (Err boom) [Inputs (VObj 1) disabled]
           (VObj 2) with_initial); [reflexivity | discriminate].
Defined.

Lemma updates_run c cbs q :
  run c (map Update cbs) q = with_live (deliver cbs (q_live q)) q.
Proof.
  revert q. induction cbs as [| cb cbs IH]; intros q; [by destruct q |].
  change (run c (map Update (cb :: cbs)) q)
    with (run c (map Update cbs) (step c q (Update cb))).
  rewrite IH. reflexivity.
Qed.

(** X6: callbacks of the subscription, however many, start no run of the
    loader and make no call to the client; they change the Live Slot only,
    and what it holds after them is decided by the last callback alone. *)
Theorem updates_touch_live_slot_only c q cbs cb :
  let q' := run c (map Update (cbs ++ [cb])) q in
  q_runs q' = q_runs q
  /\ q_calls q' = q_calls q
  /\ q_cleanup q' = q_cleanup q
  /\ key q' = key q
  /\ q_live q' = callback live0 cb.
Proof.
  intros q'. subst q'. rewrite updates_run. repeat (split; [reflexivity |]).
  simpl. rewrite deliver_snoc. by destruct cb.
Qed.

End LifecycleFacts.

(** ** The loader and the accessors of [dist/index.jsx] *)

Module LoaderMore.
Import JsFacts Dist Samples LoaderFacts.

(** X4: a run of the loader that returns without awaiting a query returns
    a defined value: it never completes synchronously with [undefined]. *)
Theorem fetcher_returns_defined c opts live src v :
  fetcher c opts live src = Return v -> defined v = true.
Proof.
  unfold fetcher, cache_step.
  destruct (isServer c && defined (initialData opts)) eqn:E1.
  - intros [= <-]. by apply andb_true_iff in E1 as [_ ?].
  - destruct (isServer c && httpClient c); [discriminate |].
    destruct (localQueryResult c (src_args src)) as [| r].
    + destruct (defined (initialData opts) && negb (hasReceivedData live))
        eqn:E2; [| discriminate].
      intros [= <-]. by apply andb_true_iff in E2 as [? _].
    + destruct (defined r) eqn:E3; [by intros [= <-] |].
      destruct (defined (initialData opts) && negb (hasReceivedData live))
        eqn:E2; [| discriminate].
      intros [= <-]. by apply andb_true_iff in E2 as [? _].
Qed.

Lemma fetcher_returns_defined_witness :
  fetcher client_hit plain live0 {| src_args := VObj 1 |} = Return (VNum 7)
  /\ defined (VNum 7) = true.
Proof.
  split; [reflexivity |].
  apply (fetcher_returns_defined client_hit plain live0
           {| src_args := VObj 1 |} (VNum 7)).
  reflexivity.
Defined.

(** X7: when isStale is true and the Live Slot holds no data, isLoading is
    true as well and the visible data is the truthy latestCompleted: data
    kept from the previous run is always shown as loading. When isStale is
    true although the Live Slot holds data, that data is identical to
    latestCompleted. *)
Theorem isStale_then_loading_or_live opts live res :
  isStale opts live res = true ->
  loading res = true
  /\ truthy (data opts live res) = true
  /\ (defined (liveData live) = false ->
        isLoading live res = true /\ data opts live res = latest res)
  /\ (defined (liveData live) = true -> liveData live = latest res).
Proof.
  intros H. apply DistFacts.isStale_true_iff in H as (Hk & Hl & Ht & Hd).
  split; [exact Hl |]. split; [by rewrite Hd |]. split.
  - intros Hn. split; [| exact Hd].
    unfold isLoading. by rewrite Hl, Hn.
  - intros Hdef. by rewrite <- Hd, (DistFacts.data_live _ _ _ Hdef).
Qed.

Lemma isStale_then_loading_or_live_witness :
  let res := {| value := VUndefined; res_error := None;
                loading := true; latest := VNum 10 |} in
  isLoading live0 res = true /\ data keep live0 res = VNum 10.
Proof.
  intros res.
  apply (proj1 (proj2 (proj2
           (isStale_then_loading_or_live keep live0 res eq_refl)))).
  reflexivity.
Defined.

End LoaderMore.

(** ** The loader and the accessors of [src/index.tsx] *)

Module TsxMore.
Import JsFacts Samples.

Lemma tsx_data_when_kept opts res :
  keepPreviousData opts = Some true -> loading res = true ->
  truthy (latest res) = true -> Tsx.data opts res = latest res.
Proof.
  intros Hk Hl Ht. unfold Tsx.data. rewrite !and_truthy, Ht, Hk, Hl. done.
Qed.

Lemma tsx_data_otherwise opts res :
  keepPreviousData opts <> Some true \/ loading res = false
  \/ truthy (latest res) = false ->
  Tsx.data opts res = value res.
Proof.
  intros H. unfold Tsx.data. rewrite !and_truthy.
  destruct (truthy (of_flag (keepPreviousData opts))) eqn:Ek; simpl; [| done].
  apply truthy_of_flag in Ek.
  destruct (loading res); simpl; [| done].
  destruct (truthy (latest res)); [| done].
  destruct H as [? | [? | ?]]; congruence.
Qed.

(** X8: in this revision isStale and isLoading are never true together:
    data kept from the previous run is truthy and so ends loading. isLoading
    is true exactly when a run is in flight, no truthy latestCompleted is
    kept, and the resource's current value is falsy. *)
Theorem tsx_stale_excludes_loading opts res :
  Tsx.isStale opts res && Tsx.isLoading opts res = false
  /\ (Tsx.isLoading opts res = true <->
        loading res = true
        /\ truthy (value res) = false
        /\ (keepPreviousData opts = Some true -> truthy (latest res) = false)).
Proof.
  split.
  - unfold Tsx.isStale, Tsx.isLoading, Boolean.
    rewrite !and_truthy. simpl.
    destruct (truthy (of_flag (keepPreviousData opts))) eqn:Ek; [| done].
    destruct (loading res) eqn:El; [| done].
    destruct (truthy (latest res)) eqn:Et; [| done]. simpl.
    apply truthy_of_flag in Ek.
    by rewrite (tsx_data_when_kept _ _ Ek El Et), Et, andb_false_r.
  - unfold Tsx.isLoading. rewrite andb_true_iff, negb_true_iff. split.
    + intros [Hl Hd]. split; [done |].
      destruct (decide (keepPreviousData opts = Some true)) as [Hk | Hk].
      * destruct (truthy (latest res)) eqn:Et.
        -- rewrite (tsx_data_when_kept _ _ Hk Hl Et) in Hd. congruence.
        -- rewrite tsx_data_otherwise in Hd by auto. done.
      * rewrite tsx_data_otherwise in Hd by auto. done.
    + intros (Hl & Hv & Hk). split; [done |].
      rewrite tsx_data_otherwise; [done |].
      destruct (decide (keepPreviousData opts = Some true)); auto.
Qed.

Lemma tsx_stale_excludes_loading_witness :
  let res := {| value := VNum 0; res_error := None;
                loading := true; latest := VNum 0 |} in
  Tsx.isLoading keep res = true /\ Tsx.isStale keep res = false.
Proof.
  intros res. split; [| reflexivity].
  apply (proj2 (tsx_stale_excludes_loading keep res)).
  split; [reflexivity |]. split; reflexivity.
Defined.

(** X9: on an interactive client the loader of this revision never awaits
    a query. A defined cache read wins, even over an error held by the Live
    Slot; without one the Live Slot's error is thrown; without that its
    defined data is returned; without that initialData is returned if
    configured and no callback has run yet, and [undefined] otherwise. *)
Theorem tsx_loader_precedence c opts live src :
  isServer c = false ->
  let a := Tsx.src_args src in
  is_network (Tsx.fetcher c opts live src) = false
  /\ (forall r, cache_step c a = Some r ->
        Tsx.fetcher c opts live src = Return r)
  /\ (cache_step c a = None -> forall e, Tsx.liveError live = Some e ->
        Tsx.fetcher c opts live src = Throw (ThrowError e))
  /\ (cache_step c a = None -> Tsx.liveError live = None ->
        defined (Tsx.liveData live) = true ->
        Tsx.fetcher c opts live src = Return (Tsx.liveData live))
  /\ (cache_step c a = None -> Tsx.liveError live = None ->
        defined (Tsx.liveData live) = false ->
        Tsx.fetcher c opts live src
        = Return (if defined (initialData opts) && (Tsx.version live =? 0)%nat
                  then initialData opts else VUndefined)).
Proof.
  intros Hs a. subst a.
  split; [by apply TsxFacts.fetcher_client_offline |].
  unfold Tsx.fetcher. rewrite Hs. simpl.
  split; [by intros r -> |].
  split; [by intros -> e -> |].
  split; [by intros -> -> -> |].
  intros -> -> ->.
  by destruct (defined (initialData opts) && (Tsx.version live =? 0)%nat).
Qed.

Lemma tsx_loader_precedence_witness :
  let src := {| Tsx.src_args := VObj 1; Tsx.src_version := 1 |} in
  Tsx.fetcher client_hit plain (Tsx.onError boom Tsx.live0) src
    = Return (VNum 7)
  /\ Tsx.fetcher client_miss plain (Tsx.onError boom Tsx.live0) src
     = Throw (ThrowError boom)
  /\ Tsx.fetcher client_miss with_initial (Tsx.onData (VNum 5) Tsx.live0) src
     = Return (VNum 5)
  /\ Tsx.fetcher client_miss with_initial Tsx.live0 src = Return (VNum 0).
Proof.
  intros src.
  pose proof (tsx_loader_precedence client_hit plain
                (Tsx.onError boom Tsx.live0) src eq_refl) as H1.
  pose proof (tsx_loader_precedence client_miss plain
                (Tsx.onError boom Tsx.live0) src eq_refl) as H2.
  pose proof (tsx_loader_precedence client_miss with_initial
                (Tsx.onData (VNum 5) Tsx.live0) src eq_refl) as H3.
  pose proof (tsx_loader_precedence client_miss with_initial
                Tsx.live0 src eq_refl) as H4.
  cbv zeta in H1, H2, H3, H4.
  destruct H1 as (_ & H1 & _). destruct H2 as (_ & _ & H2 & _).
  destruct H3 as (_ & _ & _ & H3 & _). destruct H4 as (_ & _ & _ & _ & H4).
  split; [exact (H1 (VNum 7) eq_refl) |].
  split; [exact (H2 eq_refl boom eq_refl) |].
  split; [exact (H3 eq_refl eq_refl eq_refl) |].
  exact (H4 eq_refl eq_refl eq_refl).
Defined.

Lemma tsx_deliver_snoc cbs cb l :
  TsxPush.deliver (cbs ++ [cb]) l
  = TsxPush.callback (TsxPush.deliver cbs l) cb.
Proof. unfold TsxPush.deliver. by rewrite fold_left_app. Qed.

Lemma tsx_version_counts cbs :
  Tsx.version (TsxPush.deliver cbs Tsx.live0) = length cbs.
Proof.
  induction cbs as [| cb cbs IH] using rev_ind; [done |].
  rewrite tsx_deliver_snoc, length_app. simpl.
  destruct cb; simpl; rewrite IH; lia.
Qed.

(** X10: in this revision the version in the key counts the callbacks, so
    every callback gives the resource a key it never had and the loader
    runs again. On an interactive client whose cache has no answer that run
    hands on what the callback delivered, the data as its result or the
    error as its failure, and initialData is out of use from the first
    callback on. *)
Theorem tsx_push_reruns_loader c opts args cbs cb :
  isServer c = false ->
  cache_step c args = None ->
  enabled opts <> Some false ->
  let before := TsxPush.deliver cbs Tsx.live0 in
  let after := TsxPush.deliver (cbs ++ [cb]) Tsx.live0 in
  let src := {| Tsx.src_args := args; Tsx.src_version := S (length cbs) |} in
  Tsx.source opts args after = Some src
  /\ Tsx.source opts args after <> Tsx.source opts args before
  /\ Tsx.fetcher c opts after src
     = match cb with
       | Dist.Data d => Return d
       | Dist.Err e => Throw (ThrowError e)
       end.
Proof.
  intros Hs Hc He before after src.
  assert (Tsx.version after = S (length cbs)) as Hv.
  { subst after. rewrite tsx_version_counts, length_app. simpl. lia. }
  assert (Tsx.version before = length cbs) as Hb
    by apply tsx_version_counts.
  unfold Tsx.source. rewrite bool_decide_eq_false_2 by done.
  rewrite Hv, Hb. split; [done |]. split; [intros [= H]; lia |].
  unfold Tsx.fetcher. subst src. simpl. rewrite Hs, Hc. simpl.
  subst after. rewrite tsx_deliver_snoc.
  destruct cb as [d | e]; simpl; [| done].
  destruct (defined d) eqn:Ed; [done |].
  apply not_defined in Ed as ->. by rewrite andb_false_r.
Qed.

Lemma tsx_push_reruns_loader_witness :
  let after := TsxPush.deliver [Dist.Err boom; Dist.Data (VNum 5)] Tsx.live0 in
  let src := {| Tsx.src_args := VObj 1; Tsx.src_version := 2 |} in
  Tsx.source with_initial (VObj 1) after = Some src
  /\ Tsx.source with_initial (VObj 1) after
     <> Tsx.source with_initial (VObj 1)
          (TsxPush.deliver [Dist.Err boom] Tsx.live0)
  /\ Tsx.fetcher client_miss with_initial after src = Return (VNum 5).
Proof.
  apply (tsx_push_reruns_loader client_miss with_initial (VObj 1)
           [Dist.Err boom] (Dist.Data (VNum 5)));
    [reflexivity | reflexivity | discriminate].
Defined.

End TsxMore.

(** ** The mutation and action facades under overlapping use *)

Module FacadeMore.
Import JsFacts Mutation Samples MutationFacts.
Local Open Scope list_scope.

Section AnyFacade.
Variable api : Api.MutationReturn.
Hypothesis api_is : api = useMutation \/ api = useAction.

Lemma loading_step f ev :
  consistent f ->
  (isLoading (state f) = true ->
     exists k body, started f = S k /\ pending f !! k = Some body) ->
  isLoading (state (step api f ev)) = true ->
  exists k body,
    started (step api f ev) = S k /\ pending (step api f ev) !! k = Some body.
Proof using api_is.
  intros (Hp & _) IH. destruct ev as [args | call outcome |]; simpl.
  - intros _. exists (started f), (Api.mutate api args).
    split; [done |]. apply lookup_insert_eq.
  - destruct (pending f !! call) as [body |] eqn:Hc; [| exact IH].
    destruct (Hp _ _ Hc) as [_ Hafter]. simpl. rewrite Hafter.
    by destruct outcome.
  - by rewrite (api_reset api api_is).
Qed.

Lemma loading_run evs :
  let f := run api evs facade0 in
  isLoading (state f) = true ->
  exists k body, started f = S k /\ pending f !! k = Some body.
Proof using api_is.
  induction evs as [| ev evs IH] using rev_ind; [discriminate |].
  rewrite facade_run_snoc. apply loading_step; [| exact IH].
  by destruct (run_invariant api api_is evs).
Qed.
End AnyFacade.

Lemma facade_run_app api (evs1 evs2 : list Event) f :
  run api (evs1 ++ evs2) f = run api evs2 (run api evs1 f).
Proof. unfold run. apply fold_left_app. Qed.

Lemma stray_run api post f :
  Forall (Traces.stray f) post -> run api post f = f.
Proof.
  induction post as [| ev post IH]; [done |].
  intros Hall. apply Forall_cons in Hall as [Hev Hpost].
  destruct ev as [args | call outcome |]; simpl in Hev; try done.
  change (run api (Settle call outcome :: post) f)
    with (run api post (step api f (Settle call outcome))).
  simpl. rewrite Hev. by apply IH.
Qed.

Section Since.
Variable api : Api.MutationReturn.
Hypothesis api_is : api = useMutation \/ api = useAction.

Lemma loading_since_start evs :
  isLoading (state (run api evs facade0)) = true ->
  exists (pre : list Event) args (post : list Event),
    evs = pre ++ Start args :: post
    /\ Forall (Traces.stray (run api (pre ++ [Start args]) facade0)) post.
Proof using api_is.
  induction evs as [| ev evs IH] using rev_ind; [discriminate |].
  rewrite facade_run_snoc.
  destruct (run_invariant api api_is evs) as [_ (Hp & _)].
  destruct ev as [args | call outcome |]; simpl.
  - intros _. exists evs, args, []. split; [done | constructor].
  - destruct (pending (run api evs facade0) !! call) as [body |] eqn:Hc.
    + destruct (Hp _ _ Hc) as [_ Hafter]. simpl. rewrite Hafter.
      by destruct outcome.
    + intros Hl. destruct (IH Hl) as (pre & args & post & Hevs & Hpost).
      exists pre, args, (post ++ [Settle call outcome]). split.
      * rewrite Hevs. by rewrite <- app_assoc.
      * apply Forall_app. split; [exact Hpost |].
        apply Forall_singleton. simpl.
        assert (run api evs facade0
                = run api (pre ++ [Start args]) facade0) as <-; [| exact Hc].
        rewrite Hevs at 1.
        change (pre ++ Start args :: post)
          with (pre ++ [Start args] ++ post).
        rewrite app_assoc, facade_run_app. by apply stray_run.
  - by rewrite (api_reset api api_is).
Qed.

Lemma start_then_strays_loading (pre : list Event) args (post : list Event) :
  Forall (Traces.stray (run api (pre ++ [Start args]) facade0)) post ->
  isLoading (state (run api (pre ++ Start args :: post) facade0)) = true.
Proof using api_is.
  intros Hpost.
  change (pre ++ Start args :: post) with (pre ++ [Start args] ++ post).
  rewrite app_assoc, facade_run_app, (stray_run _ _ _ Hpost).
  rewrite facade_run_snoc. simpl. by rewrite (api_before api api_is).
Qed.
End Since.

(** X11: whenever a facade reports isLoading, the call started last is
    still in flight, and no settlement and no reset has happened since it
    began: isLoading is true exactly when the events so far end in the
    start of a call followed by nothing but settlements that reach the
    facade for calls no longer in flight. *)
Theorem loading_means_latest_call_pending api evs :
  api = useMutation \/ api = useAction ->
  let f := run api evs facade0 in
  (isLoading (state f) = true ->
     exists k body, started f = S k /\ pending f !! k = Some body)
  /\ (isLoading (state f) = true <->
      exists (pre : list Event) args (post : list Event),
        evs = pre ++ Start args :: post
        /\ Forall (Traces.stray (run api (pre ++ [Start args]) facade0))
             post).
Proof.
  intros Hapi f. split; [by apply loading_run |]. split.
  - by apply loading_since_start.
  - intros (pre & args & post & -> & Hpost).
    by apply start_then_strays_loading.
Qed.

Lemma loading_means_latest_call_pending_witness :
  let evs := [Start (VNum 1); Settle 0 (Fulfilled VNull); Start (VNum 2);
              Settle 0 (Fulfilled VNull)] in
  let f := run useAction evs facade0 in
  (exists k body, started f = S k /\ pending f !! k = Some body)
  /\ isLoading (state f) = true
  /\ isLoading (state (run useAction
                         [Start (VNum 1); Start (VNum 2);
                          Settle 0 (Fulfilled VNull)] facade0)) = false.
Proof.
  intros evs f.
  pose proof (loading_means_latest_call_pending useAction evs
                (or_intror eq_refl)) as H. cbv zeta in H.
  destruct H as [Hpend Hiff].
  assert (isLoading (state f) = true) as Hl.
  { apply (proj2 Hiff).
    exists [Start (VNum 1); Settle 0 (Fulfilled VNull)], (VNum 2),
           [Settle 0 (Fulfilled VNull)].
    split; [reflexivity |]. repeat constructor. }
  split; [exact (Hpend Hl) |]. split; [exact Hl | reflexivity].
Defined.

(** X12: reset puts the state back to its initial value and cancels
    nothing: the calls in flight stay in flight, and when one of them
    settles afterwards its result or error overwrites the reset state. *)
Theorem reset_cancels_nothing api evs call body outcome :
  api = useMutation \/ api = useAction ->
  let f := run api evs facade0 in
  pending f !! call = Some body ->
  let f1 := step api f Reset in
  state f1 = idle
  /\ pending f1 = pending f
  /\ state (step api f1 (Settle call outcome)) = fst (settled outcome)
  /\ (forall v, outcome = Fulfilled v ->
        data (state (step api f1 (Settle call outcome))) = v).
Proof.
  intros Hapi f Hc f1.
  destruct (run_invariant api Hapi evs) as [_ (Hp & _)]. fold f in Hp.
  destruct (Hp _ _ Hc) as [_ Hafter].
  assert (state (step api f1 (Settle call outcome)) = fst (settled outcome))
    as Hs.
  { subst f1. simpl. rewrite Hc. simpl. by rewrite Hafter. }
  split; [subst f1; simpl; by apply api_reset |].
  split; [reflexivity |]. split; [exact Hs |].
  intros v ->. by rewrite Hs.
Qed.

Lemma reset_cancels_nothing_witness :
  let f := run useMutation [Start (VNum 1)] facade0 in
  let f1 := step useMutation f Reset in
  state f1 = idle
  /\ data (state (step useMutation f1 (Settle 0 (Fulfilled (VNum 3)))))
     = VNum 3.
Proof.
  intros f f1.
  pose proof (reset_cancels_nothing useMutation [Start (VNum 1)] 0
                (mutateAsync (VNum 1)) (Fulfilled (VNum 3))
                (or_introl eq_refl) eq_refl) as H.
  cbv zeta in H. destruct H as (H1 & _ & _ & H4).
  split; [exact H1 | exact (H4 (VNum 3) eq_refl)].
Defined.

End FacadeMore.

(** ** Client construction *)

Module SetupFacts.
Import JsFacts Setup Samples.

Lemma invalid_url_false url :
  invalid_url url = false <-> exists s, url = VStr s /\ s <> "".
Proof.
  unfold invalid_url. split.
  - destruct url as [| | b | n | s | r]; simpl;
      rewrite ?orb_true_r; try discriminate.
    destruct (String.eqb_spec s ""); simpl; [discriminate |].
    intros _. by exists s.
  - intros (s & -> & Hs). simpl.
    by destruct (String.eqb_spec s "").
Qed.

Lemma client_options_lookup server options k :
  client_options server options !! k
  = match options ≫= (fun o => o !! k) with
    | Some v => Some v
    | None => if decide (k = "disabled") then Some (VBool server) else None
    end.
Proof.
  unfold client_options. rewrite lookup_union.
  destruct options as [o |]; simpl.
  - destruct (o !! k) as [v |] eqn:E; simpl.
    + by destruct ({[ "disabled" := VBool server ]} !! k).
    + rewrite lookup_singleton.
      repeat case_decide; try reflexivity; congruence.
  - rewrite lookup_empty, lookup_singleton.
    repeat case_decide; try reflexivity; congruence.
Qed.

(** X13: the constructor of [ConvexQueryClient] refuses every url that is
    not a non-empty string, with its own message. For a non-empty string it
    fails only with what [new ConvexClient] or, on the server,
    [new ConvexHttpClient] throws, and it succeeds when they accept the
    url. The client it makes gets the caller's options, each as given, with
    [disabled] set to the server flag only when the caller's options have
    no [disabled] of their own; an HTTP client is made exactly in a server
    context, for the same url. *)
Theorem constructor_guard_and_options sdk server url options :
  let made := new_ConvexQueryClient sdk server url options in
  let passed := client_options server options in
  ((forall s, url = VStr s -> s = "") ->
     made = inl (ThrowError
                   (new_Error "ConvexQueryClient requires a valid URL string")))
  /\ (forall qc, made = inr qc ->
        (exists s, url = VStr s /\ s <> "")
        /\ client_throws sdk url passed = None
        /\ (server = true -> http_throws sdk url = None)
        /\ address (client qc) = url
        /\ client_opts (client qc) = passed
        /\ serverHttpClient qc
           = if server then Some {| http_address := url |} else None)
  /\ (forall s, url = VStr s -> s <> "" ->
        client_throws sdk url passed = None ->
        (server = true -> http_throws sdk url = None) ->
        exists qc, made = inr qc)
  /\ (forall s thrown, url = VStr s -> s <> "" -> made = inl thrown ->
        client_throws sdk url passed = Some thrown
        \/ (server = true /\ http_throws sdk url = Some thrown))
  /\ (forall k v, options ≫= (fun o => o !! k) = Some v ->
        passed !! k = Some v)
  /\ (options ≫= (fun o => o !! "disabled") = None ->
        passed !! "disabled" = Some (VBool server))
  /\ (forall k, k <> "disabled" ->
        passed !! k = options ≫= (fun o => o !! k)).
Proof.
  intros made passed. subst made passed. unfold new_ConvexQueryClient.
  split; [| split; [| split; [| split; [| split; [| split]]]]].
  - intros Hbad. destruct (invalid_url url) eqn:E; [done |].
    apply invalid_url_false in E as (s & -> & Hs).
    by destruct (Hs (Hbad s eq_refl)).
  - intros qc. destruct (invalid_url url) eqn:E; [discriminate |].
    apply invalid_url_false in E.
    destruct (client_throws sdk url _) eqn:Ec; [discriminate |].
    destruct server.
    + destruct (http_throws sdk url) eqn:Eh; [discriminate |].
      by intros [= <-].
    + by intros [= <-].
  - intros s -> Hs Hc Hh.
    rewrite (proj2 (invalid_url_false (VStr s))) by (by exists s).
    rewrite Hc. destruct server; [rewrite Hh by done |]; by eexists.
  - intros s thrown -> Hs.
    rewrite (proj2 (invalid_url_false (VStr s))) by (by exists s).
    destruct (client_throws sdk (VStr s) _) eqn:Ec; [intros [= <-]; by left |].
    destruct server; [| discriminate].
    destruct (http_throws sdk (VStr s)) eqn:Eh; [| discriminate].
    intros [= <-]. by right.
  - intros k v Hk. by rewrite client_options_lookup, Hk.
  - intros Hn. rewrite client_options_lookup, Hn. by case_decide.
  - intros k Hk. rewrite client_options_lookup.
    destruct (options ≫= _); [done |]. by case_decide.
Qed.

Lemma constructor_guard_and_options_witness :
  let guard := ThrowError
                 (new_Error "ConvexQueryClient requires a valid URL string") in
  let sdk_error := ThrowError (new_Error "Invalid deployment address") in
  let own := Some {[ "disabled" := VBool false ]} in
  new_ConvexQueryClient Traces.sdk0 true (VStr "") None = inl guard
  /\ new_ConvexQueryClient Traces.sdk0 true (VNum 3) None = inl guard
  /\ new_ConvexQueryClient Traces.sdk0 true (VStr "not a url") None
     = inl sdk_error
  /\ (exists qc,
        new_ConvexQueryClient Traces.sdk0 true
          (VStr "https://x.convex.cloud") own = inr qc)
  /\ client_options true own !! "disabled" = Some (VBool false)
  /\ client_options true None !! "disabled" = Some (VBool true).
Proof.
  intros guard sdk_error own.
  split; [| split; [| split; [| split; [| split]]]].
  - apply (proj1 (constructor_guard_and_options Traces.sdk0 true
                    (VStr "") None)).
    by intros s [= <-].
  - apply (proj1 (constructor_guard_and_options Traces.sdk0 true
                    (VNum 3) None)).
    discriminate.
  - destruct (new_ConvexQueryClient Traces.sdk0 true (VStr "not a url") None)
      as [thrown | qc] eqn:E; [| discriminate].
    pose proof (constructor_guard_and_options Traces.sdk0 true
                  (VStr "not a url") None) as H. cbv zeta in H.
    destruct H as (_ & _ & _ & Hsdk & _).
    destruct (Hsdk "not a url" thrown eq_refl ltac:(discriminate) E)
      as [Hc | [_ Hh]]; [by injection Hc as <- | by injection Hh as <-].
  - pose proof (constructor_guard_and_options Traces.sdk0 true
                  (VStr "https://x.convex.cloud") own) as H. cbv zeta in H.
    destruct H as (_ & _ & Hok & _).
    apply (Hok "https://x.convex.cloud" eq_refl); [discriminate | done | done].
  - pose proof (constructor_guard_and_options Traces.sdk0 true
                  (VStr "https://x.convex.cloud") own) as H. cbv zeta in H.
    destruct H as (_ & _ & _ & _ & Hopt & _).
    apply Hopt. reflexivity.
  - pose proof (constructor_guard_and_options Traces.sdk0 true
                  (VStr "https://x.convex.cloud") None) as H. cbv zeta in H.
    destruct H as (_ & _ & _ & _ & _ & Hdef & _).
    apply Hdef. reflexivity.
Defined.

(** X14: in [dist/index.jsx], [setupConvex] refuses a url that is not a
    non-empty string, with its own message, and for a non-empty string
    fails with what [new ConvexClient] throws, if it throws, and makes a
    client if not. When it makes one, the client is new and its url is on
    record: [useQuery] under that client calls [new ConvexHttpClient] with
    that url on the server and has no HTTP client in the browser; the urls
    of other clients stay as they were, and a later [setupConvex] makes a
    different client and leaves this url in place. *)
Theorem setupConvex_registers_url sdk server url options r :
  let passed := client_options server options in
  ((forall s, url = VStr s -> s = "") ->
     setupConvex sdk server url options r
     = inl (ThrowError (new_Error "setupConvex requires a valid URL string")))
  /\ (forall s thrown, url = VStr s -> s <> "" ->
        client_throws sdk url passed = Some thrown ->
        setupConvex sdk server url options r = inl thrown)
  /\ (forall s, url = VStr s -> s <> "" ->
        client_throws sdk url passed = None ->
        exists r', setupConvex sdk server url options r = inr (created r, r'))
  /\ (forall k r',
        setupConvex sdk server url options r = inr (k, r') ->
        k = created r
        /\ (exists s, url = VStr s /\ s <> "")
        /\ client_throws sdk url passed = None
        /\ url_of r' k = url
        /\ useQuery_clients_jsx sdk true (Some k) r'
           = match http_throws sdk url with
             | Some thrown => inl thrown
             | None => inr (k, Some {| http_address := url |})
             end
        /\ useQuery_clients_jsx sdk false (Some k) r' = inr (k, None)
        /\ (forall other, other <> k -> url_of r' other = url_of r other)
        /\ (forall server2 url2 options2 k2 r2,
              setupConvex sdk server2 url2 options2 r' = inr (k2, r2) ->
              k2 <> k /\ url_of r2 k = url)).
Proof.
  intros passed. subst passed. unfold setupConvex.
  split; [| split; [| split]].
  - intros Hbad. destruct (invalid_url url) eqn:E; [done |].
    apply invalid_url_false in E as (s & -> & Hs).
    by destruct (Hs (Hbad s eq_refl)).
  - intros s thrown -> Hs Hc.
    rewrite (proj2 (invalid_url_false (VStr s))) by (by exists s).
    by rewrite Hc.
  - intros s -> Hs Hc.
    rewrite (proj2 (invalid_url_false (VStr s))) by (by exists s).
    rewrite Hc. by eexists.
  - intros k r'. destruct (invalid_url url) eqn:E; [discriminate |].
    apply invalid_url_false in E as (s & -> & Hs).
    destruct (client_throws sdk (VStr s) _) eqn:Ec; [discriminate |].
    intros [= <- <-].
    split; [done |]. split; [by exists s |]. split; [done |].
    unfold useQuery_clients_jsx, url_of. simpl.
    rewrite lookup_insert_eq. simpl.
    destruct (String.eqb_spec s "") as [-> | _]; [done |]. simpl.
    split; [done |]. split; [done |]. split; [done |].
    split.
    + intros other Ho. by rewrite lookup_insert_ne.
    + intros server2 url2 options2 k2 r2.
      destruct (invalid_url url2); [discriminate |].
      destruct (client_throws sdk url2 _); [discriminate |].
      intros [= <- <-]. simpl. split; [lia |].
      rewrite lookup_insert_ne by lia. by rewrite lookup_insert_eq.
Qed.

Lemma setupConvex_registers_url_witness :
  setupConvex Traces.sdk0 true VUndefined None registry0
  = inl (ThrowError (new_Error "setupConvex requires a valid URL string"))
  /\ setupConvex Traces.sdk0 true (VStr "not a url") None registry0
     = inl (ThrowError (new_Error "Invalid deployment address"))
  /\ exists r',
       setupConvex Traces.sdk0 true (VStr "https://x.convex.cloud") None
         registry0 = inr (0, r')
       /\ useQuery_clients_jsx Traces.sdk0 true (Some 0) r'
          = inr (0, Some {| http_address := VStr "https://x.convex.cloud" |}).
Proof.
  split; [| split].
  - apply (proj1 (setupConvex_registers_url Traces.sdk0 true VUndefined None
                    registry0)).
    discriminate.
  - pose proof (setupConvex_registers_url Traces.sdk0 true (VStr "not a url")
                  None registry0) as H. cbv zeta in H.
    destruct H as (_ & Hthrow & _).
    apply (Hthrow "not a url"); [reflexivity | discriminate | reflexivity].
  - pose proof (setupConvex_registers_url Traces.sdk0 true
                  (VStr "https://x.convex.cloud") None registry0) as H.
    cbv zeta in H. destruct H as (_ & _ & Hok & Hreg).
    destruct (Hok "https://x.convex.cloud" eq_refl ltac:(discriminate)
                eq_refl) as (r' & Hs).
    exists r'. split; [exact Hs |].
    destruct (Hreg 0 r' Hs) as (_ & _ & _ & _ & Hq & _). exact Hq.
Defined.

(** X15: in [dist/index.jsx], a client that [setupConvex] did not make has
    no url on record, so [useQuery] gives it no HTTP client even on the
    server. The loader then never makes the HTTP query: on the server it
    returns a configured initialData and otherwise does what it does in the
    browser, the cache read and then the query through the client itself.
    Outside a provider [useQuery] fails with its own message. *)
Theorem unregistered_client_has_no_http sdk server client r :
  clientUrls r !! client = None ->
  useQuery_clients_jsx sdk server (Some client) r = inr (client, None)
  /\ useQuery_clients_jsx sdk server None r
     = inl (ThrowError
              (new_Error "useQuery must be used within ConvexProvider"))
  /\ (forall cache q hq opts live src,
        let on_server := loader_client true None cache q hq in
        let in_browser := loader_client false None cache q hq in
        is_network (Dist.fetcher on_server opts live src) = true ->
        Dist.fetcher on_server opts live src = AwaitQuery (Dist.src_args src)
        /\ Dist.fetcher on_server opts live src
           = Dist.fetcher in_browser opts live src).
Proof.
  intros Hn. unfold useQuery_clients_jsx, url_of. rewrite Hn. simpl.
  split; [by destruct server |]. split; [done |].
  intros cache q hq opts live src.
  unfold Dist.fetcher, cache_step. simpl.
  destruct (defined (initialData opts)) eqn:Ed; simpl; [discriminate |].
  destruct (cache (Dist.src_args src)) as [| res]; [done |].
  destruct (defined res); [discriminate | done].
Qed.

Lemma unregistered_client_has_no_http_witness :
  useQuery_clients_jsx Traces.sdk0 true (Some 4) registry0 = inr (4, None)
  /\ Dist.fetcher
       (loader_client true None (fun _ => CacheThrows)
          (fun _ => Fulfilled (VNum 8)) (fun _ => Fulfilled (VNum 9)))
       plain Dist.live0 {| Dist.src_args := VObj 1 |}
     = AwaitQuery (VObj 1).
Proof.
  destruct (unregistered_client_has_no_http Traces.sdk0 true 4 registry0
              eq_refl)
    as (H1 & _ & H3).
  split; [exact H1 |].
  apply (H3 (fun _ => CacheThrows) (fun _ => Fulfilled (VNum 8))
            (fun _ => Fulfilled (VNum 9)) plain Dist.live0
            {| Dist.src_args := VObj 1 |}).
  reflexivity.
Defined.

(** X16: in [dist/dev.js] and [src/index.tsx], a client made by the
    constructor in a server context always brings its HTTP client to
    [useQuery]. The loader on the server then never reads the local cache
    and never queries through the WebSocket client: in [dist/dev.js] it
    returns a configured initialData and otherwise awaits the HTTP query;
    in [src/index.tsx] it awaits the HTTP query even when initialData is
    configured. *)
Theorem constructed_client_on_server sdk url options qc :
  new_ConvexQueryClient sdk true url options = inr qc ->
  exists http,
    useQuery_clients (Some qc) = inr (client qc, Some http)
    /\ http_address http = url
    /\ (forall cache q hq opts live tlive args v,
          let env := loader_client true (Some http) cache q hq in
          Dist.fetcher env opts live {| Dist.src_args := args |}
          = (if defined (initialData opts) then Return (initialData opts)
             else AwaitHttpQuery args)
          /\ Tsx.fetcher env opts tlive
               {| Tsx.src_args := args; Tsx.src_version := v |}
             = AwaitHttpQuery args).
Proof.
  unfold new_ConvexQueryClient.
  destruct (invalid_url url); [discriminate |].
  destruct (client_throws sdk url _); [discriminate |].
  destruct (http_throws sdk url); [discriminate |]. intros [= <-].
  eexists. split; [reflexivity |]. split; [reflexivity |].
  intros cache q hq opts live tlive args v. simpl.
  unfold Dist.fetcher, Tsx.fetcher. simpl.
  by destruct (defined (initialData opts)).
Qed.

Lemma constructed_client_on_server_witness :
  exists qc http,
    new_ConvexQueryClient Traces.sdk0 true (VStr "https://x.convex.cloud")
      None = inr qc
    /\ useQuery_clients (Some qc) = inr (client qc, Some http)
    /\ Tsx.fetcher
         (loader_client true (Some http) (fun _ => CacheReturns (VNum 7))
            (fun _ => Fulfilled (VNum 8)) (fun _ => Fulfilled (VNum 9)))
         with_initial Tsx.live0
         {| Tsx.src_args := VObj 1; Tsx.src_version := 0 |}
       = AwaitHttpQuery (VObj 1).
Proof.
  eexists.
  destruct (constructed_client_on_server Traces.sdk0
              (VStr "https://x.convex.cloud") None _ eq_refl)
    as (http & Hu & _ & Hf).
  exists http. split; [reflexivity |]. split; [exact Hu |].
  exact (proj2 (Hf (fun _ => CacheReturns (VNum 7))
                   (fun _ => Fulfilled (VNum 8)) (fun _ => Fulfilled (VNum 9))
                   with_initial Dist.live0 Tsx.live0 (VObj 1) 0)).
Defined.

End SetupFacts.
